(** * XmsgBot: scoring, subscription matching and push-record life cycle

    A shallow embedding of the model methods of
    [src/models/Tweet.js], [src/models/Subscription.js] and
    [src/models/PushRecord.js], followed by the properties that the
    specification states about them.

    Conventions of the embedding.
    - A JavaScript [Date] is its time value, an integer number of
      milliseconds ([Z]); an absent date is [None].
    - [Date.now()], [new Date()], [getHours()] and [Math.random()] read the
      environment; the value read is an explicit argument of the method.
    - A method that mutates [this] and ends in [this.save()] is a function
      from the record to the updated record; persistence is not modelled.
    - JavaScript numbers are modelled twice.  The order properties
      (bounds, monotonicity), which rounding to the nearest double
      preserves, are proved over exact numbers: counters and timestamps
      as [Z], the retry delay as [Q], and the hotness score, which goes
      through [Math.exp], as real numbers.  What depends on the rounding
      itself is stated over IEEE 754 binary64, in the modules [Binary64],
      [Tweet64] and [PushRecord64]. *)

From Stdlib Require Import ZArith QArith Qround Qpower Reals Psatz.
From Stdlib Require Import SpecFloat.
From Stdlib Require Import List String Ascii Bool.
Import ListNotations.

(* ================================================================= *)
(** ** JavaScript built-ins used by the models *)

Module JS.

Local Open Scope string_scope.

(** [search] is found in [text] at offset 0. *)
Fixpoint startsWith (text search : string) {struct search} : bool :=
  match search, text with
  | EmptyString, _ => true
  | String a search', String b text' =>
      Ascii.eqb a b && startsWith text' search'
  | String _ _, EmptyString => false
  end.

(** [text.includes(search)]: [search] occurs in [text] at some offset. *)
Fixpoint includes (text search : string) : bool :=
  startsWith text search
  || match text with
     | EmptyString => false
     | String _ rest => includes rest search
     end.

(** ASCII restriction of [String.prototype.toLowerCase]: on a string of
    ASCII characters the Unicode lower-casing maps A-Z to a-z and leaves
    every other character alone. *)
Definition asciiLowerChar (c : ascii) : ascii :=
  let n := N_of_ascii c in
  if (65 <=? n)%N && (n <=? 90)%N then ascii_of_N (n + 32) else c.

Fixpoint asciiLower (s : string) : string :=
  match s with
  | EmptyString => EmptyString
  | String c rest => String (asciiLowerChar c) (asciiLower rest)
  end.

(** [Math.round]: the nearest integer, a tie going towards plus infinity,
    that is the floor of [x + 1/2]. *)
Definition Math_round (x : R) : Z := Int_part (x + / 2)%R.

(** [Math.pow(2, n)] at an integer exponent; a negative exponent gives the
    inverse power. *)
Definition Math_pow2 (n : Z) : Q := Qpower 2 n.

(** [new Date(v)] keeps the integral part of [v] (truncation towards
    zero) as the time value.  The limit of 8.64e15 milliseconds beyond
    which the date is invalid is not modelled. *)
Definition new_Date (v : Q) : Z :=
  if Qle_bool 0 v then Qfloor v else Qceiling v.

(** The specification's substring relation. *)
Definition Substring (search text : string) : Prop :=
  exists before after, text = before ++ search ++ after.

End JS.

(* ================================================================= *)
(** ** Tweet ([src/models/Tweet.js]) *)

Module Tweet.

Record Author := {
  verified : bool;
  followers_count : Z
}.

Record PublicMetrics := {
  retweet_count : Z;
  like_count : Z;
  reply_count : Z;
  quote_count : Z
}.

Record Metadata := {
  created_at : Z;
  lang : string
}.

Record Attachments := {
  media_keys : option (list string)
}.

Record Entities := {
  urls : option (list string)
}.

Record t := {
  tweetId : string;
  text : string;
  author : Author;
  public_metrics : PublicMetrics;
  metadata : Metadata;
  attachments : option Attachments;
  entities : option Entities;
  hotness_score : Z
}.

Definition set_hotness_score (s : Z) (tw : t) : t :=
  {| tweetId := tweetId tw; text := text tw; author := author tw;
     public_metrics := public_metrics tw; metadata := metadata tw;
     attachments := attachments tw; entities := entities tw;
     hotness_score := s |}.

Local Open Scope R_scope.

(** [calculateHotnessScore] over the real numbers; [now] is the value of
    [Date.now()].  The result is the updated tweet together with the
    returned score.  [Tweet64.calculateHotnessScore] is the same
    computation in binary64. *)
Definition calculateHotnessScore (now : Z) (tw : t) : t * Z :=
  let metrics := public_metrics tw in
  let ageInHours :=
    IZR (now - created_at (metadata tw)) / (1000 * 60 * 60) in
  let baseScore :=
    IZR (like_count metrics) * 1 +
    IZR (retweet_count metrics) * 2 +
    IZR (reply_count metrics) * 1.5 +
    IZR (quote_count metrics) * 1.8 in
  let authorWeight := Rmin (IZR (followers_count (author tw)) / 10000) 5 in
  let baseScore := baseScore * (1 + authorWeight * 0.1) in
  let baseScore :=
    if verified (author tw) then baseScore * 1.2 else baseScore in
  let timeDecay := exp (- ageInHours / 24) in
  let score := JS.Math_round (baseScore * timeDecay) in
  (set_hotness_score score tw, score).

(** The score before [Math.round], used to state what rounding loses. *)
Definition rawHotness (now : Z) (tw : t) : R :=
  let metrics := public_metrics tw in
  let ageInHours :=
    IZR (now - created_at (metadata tw)) / (1000 * 60 * 60) in
  let baseScore :=
    IZR (like_count metrics) * 1 +
    IZR (retweet_count metrics) * 2 +
    IZR (reply_count metrics) * 1.5 +
    IZR (quote_count metrics) * 1.8 in
  let authorWeight := Rmin (IZR (followers_count (author tw)) / 10000) 5 in
  let baseScore := baseScore * (1 + authorWeight * 0.1) in
  let baseScore :=
    if verified (author tw) then baseScore * 1.2 else baseScore in
  let timeDecay := exp (- ageInHours / 24) in
  baseScore * timeDecay.

End Tweet.

(* ================================================================= *)
(** ** The score formula in the words of the specification *)

Module ScoreSpec.

Local Open Scope R_scope.

Definition ageHours (now : Z) (tw : Tweet.t) : R :=
  IZR (now - Tweet.created_at (Tweet.metadata tw)) / 3600000.

Definition base (tw : Tweet.t) : R :=
  let m := Tweet.public_metrics tw in
  1 * IZR (Tweet.like_count m) + 2 * IZR (Tweet.retweet_count m) +
  1.5 * IZR (Tweet.reply_count m) + 1.8 * IZR (Tweet.quote_count m).

Definition influence (tw : Tweet.t) : R :=
  1 + 0.1 * Rmin (IZR (Tweet.followers_count (Tweet.author tw)) / 10000) 5.

Definition verifiedMultiplier (tw : Tweet.t) : R :=
  if Tweet.verified (Tweet.author tw) then 1.2 else 1.

Definition decay (age : R) : R := exp (- age / 24).

(** An item as the specification means it: counters count something. *)
Definition counters_nonneg (tw : Tweet.t) : Prop :=
  let m := Tweet.public_metrics tw in
  (0 <= Tweet.like_count m)%Z /\ (0 <= Tweet.retweet_count m)%Z /\
  (0 <= Tweet.reply_count m)%Z /\ (0 <= Tweet.quote_count m)%Z /\
  (0 <= Tweet.followers_count (Tweet.author tw))%Z.

End ScoreSpec.

(* ================================================================= *)
(** ** Subscription ([src/models/Subscription.js]) *)

Module Subscription.

Inductive Requirement := any | required | excluded.

Inductive Channel := wechat | telegram | discord.

Inductive Frequency := realtime | every_5min | every_15min | hourly | daily.

Record Filters := {
  languages : list string;
  minLikes : Z;
  minRetweets : Z;
  minReplies : Z;
  hasMedia : Requirement;
  hasLinks : Requirement;
  excludeKeywords : list string
}.

Record ActiveHours := {
  start : Z;
  end_ : Z
}.

Record PushSettings := {
  channels : list Channel;
  frequency : Frequency;
  activeHours : ActiveHours;
  maxTweetsPerPush : Z
}.

Record t := {
  name : string;
  keywords : list string;
  filters : Filters;
  pushSettings : PushSettings;
  isActive : bool
}.

Definition requirement_eqb (a b : Requirement) : bool :=
  match a, b with
  | any, any | required, required | excluded, excluded => true
  | _, _ => false
  end.

Section Matching.

(** [String.prototype.toLowerCase] is Unicode-aware; the matching logic
    does not depend on which lower-casing it is. *)
Variable toLowerCase : string -> string.

Definition matchesKeywords (sub : t) (text : string) : bool :=
  let lowerText := toLowerCase text in
  let hasKeyword :=
    existsb (fun keyword => JS.includes lowerText (toLowerCase keyword))
            (keywords sub) in
  if negb hasKeyword then false
  else
    let hasExcludeKeyword :=
      existsb (fun keyword => JS.includes lowerText (toLowerCase keyword))
              (excludeKeywords (filters sub)) in
    negb hasExcludeKeyword.

End Matching.

Local Open Scope Z_scope.

(** [a && a.xs && a.xs.length > 0] followed by a truthiness test. *)
Definition nonEmptyField {A B : Type} (o : option A)
           (field : A -> option (list B)) : bool :=
  match o with
  | None => false
  | Some a =>
      match field a with
      | None => false
      | Some xs => 0 <? Z.of_nat (List.length xs)
      end
  end.

Definition matchesFilters (sub : t) (tweet : Tweet.t) : bool :=
  let filters := filters sub in
  let pm := Tweet.public_metrics tweet in
  if Tweet.like_count pm <? minLikes filters then false
  else if Tweet.retweet_count pm <? minRetweets filters then false
  else if Tweet.reply_count pm <? minReplies filters then false
  else
    let hasMedia_ := nonEmptyField (Tweet.attachments tweet) Tweet.media_keys in
    if requirement_eqb (hasMedia filters) required && negb hasMedia_ then false
    else if requirement_eqb (hasMedia filters) excluded && hasMedia_ then false
    else
      let hasLinks_ := nonEmptyField (Tweet.entities tweet) Tweet.urls in
      if requirement_eqb (hasLinks filters) required && negb hasLinks_ then false
      else if requirement_eqb (hasLinks filters) excluded && hasLinks_ then false
      else true.

(** [isInActiveHours]; [currentHour] is [new Date().getHours()]. *)
Definition isInActiveHours (currentHour : Z) (sub : t) : bool :=
  let start := start (activeHours (pushSettings sub)) in
  let end_ := end_ (activeHours (pushSettings sub)) in
  if start <=? end_ then (currentHour >=? start) && (currentHour <=? end_)
  else (currentHour >=? start) || (currentHour <=? end_).

End Subscription.

(* ================================================================= *)
(** ** PushRecord (the [PushRecord] model; its text follows the
    subscription model in [src/models/Subscription.js]) *)

Module PushRecord.

Inductive Status := pending | sending | success | failed | cancelled.

Inductive Priority := low | normal | high | urgent.

Record PushConfig := {
  priority : Priority;
  retryCount : Z;
  maxRetries : Z;
  retryDelay : Q;
  timeout : Q
}.

Record Result := {
  messageId : option string;
  deliveryTime : option Z;
  responseTime : option Z;
  errorCode : option string;
  errorMessage : option string;
  rawResponse : option string
}.

Record Interaction := {
  isRead : bool;
  readAt : option Z;
  isClicked : bool;
  clickedAt : option Z;
  clickCount : Z;
  feedback : option string;
  feedbackAt : option Z
}.

Record Timing := {
  scheduledAt : option Z;
  startedAt : option Z;
  completedAt : option Z;
  duration : option Z;
  queueTime : option Z
}.

(** One element of [retryHistory]; its [duration] field is renamed, the
    name being taken by [Timing]. *)
Record RetryEntry := {
  attempt : Z;
  timestamp : Z;
  error : option string;
  retry_duration : Z
}.

Record t := {
  tweetId : string;
  channel : Subscription.Channel;
  status : Status;
  pushConfig : PushConfig;
  result : Result;
  interaction : Interaction;
  timing : Timing;
  retryHistory : list RetryEntry
}.

(** *** Field assignments *)

Definition set_status (s : Status) (r : t) : t :=
  {| tweetId := tweetId r; channel := channel r; status := s;
     pushConfig := pushConfig r; result := result r;
     interaction := interaction r; timing := timing r;
     retryHistory := retryHistory r |}.

Definition set_pushConfig (c : PushConfig) (r : t) : t :=
  {| tweetId := tweetId r; channel := channel r; status := status r;
     pushConfig := c; result := result r;
     interaction := interaction r; timing := timing r;
     retryHistory := retryHistory r |}.

Definition set_result (x : Result) (r : t) : t :=
  {| tweetId := tweetId r; channel := channel r; status := status r;
     pushConfig := pushConfig r; result := x;
     interaction := interaction r; timing := timing r;
     retryHistory := retryHistory r |}.

Definition set_interaction (i : Interaction) (r : t) : t :=
  {| tweetId := tweetId r; channel := channel r; status := status r;
     pushConfig := pushConfig r; result := result r;
     interaction := i; timing := timing r;
     retryHistory := retryHistory r |}.

Definition set_timing (x : Timing) (r : t) : t :=
  {| tweetId := tweetId r; channel := channel r; status := status r;
     pushConfig := pushConfig r; result := result r;
     interaction := interaction r; timing := x;
     retryHistory := retryHistory r |}.

Definition set_retryHistory (h : list RetryEntry) (r : t) : t :=
  {| tweetId := tweetId r; channel := channel r; status := status r;
     pushConfig := pushConfig r; result := result r;
     interaction := interaction r; timing := timing r;
     retryHistory := h |}.

Definition set_retryCount (n : Z) (c : PushConfig) : PushConfig :=
  {| priority := priority c; retryCount := n; maxRetries := maxRetries c;
     retryDelay := retryDelay c; timeout := timeout c |}.

Definition set_startedAt (d : option Z) (x : Timing) : Timing :=
  {| scheduledAt := scheduledAt x; startedAt := d;
     completedAt := completedAt x; duration := duration x;
     queueTime := queueTime x |}.

Definition set_completedAt (d : option Z) (x : Timing) : Timing :=
  {| scheduledAt := scheduledAt x; startedAt := startedAt x;
     completedAt := d; duration := duration x;
     queueTime := queueTime x |}.

Definition set_duration (d : option Z) (x : Timing) : Timing :=
  {| scheduledAt := scheduledAt x; startedAt := startedAt x;
     completedAt := completedAt x; duration := d;
     queueTime := queueTime x |}.

Definition set_queueTime (d : option Z) (x : Timing) : Timing :=
  {| scheduledAt := scheduledAt x; startedAt := startedAt x;
     completedAt := completedAt x; duration := duration x;
     queueTime := d |}.

Definition status_eqb (a b : Status) : bool :=
  match a, b with
  | pending, pending | sending, sending | success, success
  | failed, failed | cancelled, cancelled => true
  | _, _ => false
  end.

Local Open Scope Z_scope.

(** *** Life-cycle methods.  [now] is the value of [new Date()]. *)

Definition markAsStarted (now : Z) (r : t) : t :=
  let r := set_status sending r in
  let r := set_timing (set_startedAt (Some now) (timing r)) r in
  match scheduledAt (timing r) with
  | Some scheduled =>
      set_timing (set_queueTime (Some (now - scheduled)) (timing r)) r
  | None => r
  end.

(** [responseTime = 0] and [rawResponse = null] are default parameters:
    [None] stands for an omitted argument, and for [rawResponse] also for
    any falsy one. *)
Definition markAsSuccess (now : Z) (messageId_ : option string)
           (responseTime_ : option Z) (rawResponse_ : option string)
           (r : t) : t :=
  let responseTime_ := match responseTime_ with Some x => x | None => 0 end in
  let r := set_status success r in
  let r := set_timing (set_completedAt (Some now) (timing r)) r in
  let r :=
    match startedAt (timing r) with
    | Some started =>
        set_timing (set_duration (Some (now - started)) (timing r)) r
    | None => r
    end in
  let res := result r in
  let res :=
    {| messageId := messageId_; deliveryTime := completedAt (timing r);
       responseTime := Some responseTime_; errorCode := errorCode res;
       errorMessage := errorMessage res; rawResponse := rawResponse res |} in
  let res :=
    match rawResponse_ with
    | Some raw =>
        {| messageId := messageId res; deliveryTime := deliveryTime res;
           responseTime := responseTime res; errorCode := errorCode res;
           errorMessage := errorMessage res; rawResponse := Some raw |}
    | None => res
    end in
  set_result res r.

Definition markAsFailed (now : Z) (errorCode_ errorMessage_ : option string)
           (rawResponse_ : option string) (r : t) : t :=
  let r := set_status failed r in
  let r := set_timing (set_completedAt (Some now) (timing r)) r in
  let r :=
    match startedAt (timing r) with
    | Some started =>
        set_timing (set_duration (Some (now - started)) (timing r)) r
    | None => r
    end in
  let res := result r in
  let res :=
    {| messageId := messageId res; deliveryTime := deliveryTime res;
       responseTime := responseTime res; errorCode := errorCode_;
       errorMessage := errorMessage_; rawResponse := rawResponse res |} in
  let res :=
    match rawResponse_ with
    | Some raw =>
        {| messageId := messageId res; deliveryTime := deliveryTime res;
           responseTime := responseTime res; errorCode := errorCode res;
           errorMessage := errorMessage res; rawResponse := Some raw |}
    | None => res
    end in
  set_result res r.

Definition addRetryAttempt (now : Z) (error_ : option string)
           (duration_ : option Z) (r : t) : t :=
  let duration_ := match duration_ with Some d => d | None => 0 end in
  let r :=
    set_pushConfig
      (set_retryCount (retryCount (pushConfig r) + 1) (pushConfig r)) r in
  set_retryHistory
    (retryHistory r ++
     [ {| attempt := retryCount (pushConfig r); timestamp := now;
          error := error_; retry_duration := duration_ |} ]) r.

Definition canRetry (r : t) : bool :=
  (retryCount (pushConfig r) <? maxRetries (pushConfig r))
  && status_eqb (status r) failed.

(** [getNextRetryTime] with the sum taken exactly; [now] is [Date.now()]
    and [random] the value of [Math.random()].  [None] is the returned
    [null].  [PushRecord64.getNextRetryTime] is the same computation in
    binary64. *)
Definition getNextRetryTime (now : Z) (random : Q) (r : t) : option Z :=
  if negb (canRetry r) then None
  else
    let baseDelay := (retryDelay (pushConfig r) * 1000)%Q in
    let exponentialDelay :=
      (baseDelay * JS.Math_pow2 (retryCount (pushConfig r) - 1))%Q in
    let jitter := (random * 1000)%Q in
    Some (JS.new_Date (inject_Z now + exponentialDelay + jitter)%Q).

(** [updateInteraction(type, data)]; [data_feedback] is [data.feedback]. *)
Definition updateInteraction (now : Z) (type : string)
           (data_feedback : option string) (r : t) : t :=
  let i := interaction r in
  if String.eqb type "read" then
    set_interaction
      {| isRead := true; readAt := Some now; isClicked := isClicked i;
         clickedAt := clickedAt i; clickCount := clickCount i;
         feedback := feedback i; feedbackAt := feedbackAt i |} r
  else if String.eqb type "click" then
    set_interaction
      {| isRead := isRead i; readAt := readAt i; isClicked := true;
         clickedAt := Some now; clickCount := clickCount i + 1;
         feedback := feedback i; feedbackAt := feedbackAt i |} r
  else if String.eqb type "feedback" then
    set_interaction
      {| isRead := isRead i; readAt := readAt i; isClicked := isClicked i;
         clickedAt := clickedAt i; clickCount := clickCount i;
         feedback := data_feedback; feedbackAt := Some now |} r
  else r.

(** *** A record as the schema creates it

    Every field takes its schema default; the required references and the
    optional schedule are the arguments. *)
Definition create (tweetId_ : string) (channel_ : Subscription.Channel)
           (scheduledAt_ : option Z) : t :=
  {| tweetId := tweetId_; channel := channel_; status := pending;
     pushConfig :=
       {| priority := normal; retryCount := 0; maxRetries := 3;
          retryDelay := 300; timeout := 30 |};
     result :=
       {| messageId := None; deliveryTime := None; responseTime := None;
          errorCode := None; errorMessage := None; rawResponse := None |};
     interaction :=
       {| isRead := false; readAt := None; isClicked := false;
          clickedAt := None; clickCount := 0; feedback := None;
          feedbackAt := None |};
     timing :=
       {| scheduledAt := scheduledAt_; startedAt := None;
          completedAt := None; duration := None; queueTime := None |};
     retryHistory := [] |}.

(** *** Histories of life-cycle calls *)

Inductive Call :=
| CallStarted (now : Z)
| CallSuccess (now : Z) (messageId_ : option string)
              (responseTime_ : option Z) (rawResponse_ : option string)
| CallFailed (now : Z) (errorCode_ errorMessage_ rawResponse_ : option string)
| CallRetry (now : Z) (error_ : option string) (duration_ : option Z)
| CallInteraction (now : Z) (type : string) (data_feedback : option string).

Definition call (c : Call) (r : t) : t :=
  match c with
  | CallStarted now => markAsStarted now r
  | CallSuccess now m rt raw => markAsSuccess now m rt raw r
  | CallFailed now code msg raw => markAsFailed now code msg raw r
  | CallRetry now e d => addRetryAttempt now e d r
  | CallInteraction now ty fb => updateInteraction now ty fb r
  end.

(** The calls are applied first to last. *)
Definition run (cs : list Call) (r : t) : t :=
  fold_left (fun acc c => call c acc) cs r.

(** The invariant linking the retry counter to the retry log. *)
Definition counts_history (r : t) : Prop :=
  retryCount (pushConfig r) = Z.of_nat (List.length (retryHistory r)).

(** One failed delivery as the caller records it: [markAsFailed] at
    [failedAt], then [addRetryAttempt] at [retriedAt]. *)
Record Cycle := {
  failedAt : Z;
  code : option string;
  message : option string;
  raw : option string;
  retriedAt : Z;
  spent : option Z
}.

Definition failAndRetry (c : Cycle) (r : t) : t :=
  addRetryAttempt (retriedAt c) (message c) (spent c)
    (markAsFailed (failedAt c) (code c) (message c) (raw c) r).

Definition cycles (cs : list Cycle) (r : t) : t :=
  fold_left (fun acc c => failAndRetry c acc) cs r.

End PushRecord.

(* ================================================================= *)
(** ** Sample data *)

Module Samples.

Import Subscription.
Local Open Scope string_scope.
Local Open Scope Z_scope.

(** A subscription with the schema defaults and the given keywords,
    exclude keywords, languages and active-hours window. *)
Definition subscription (ks xs langs : list string) (s e : Z) : t :=
  {| name := "sample"; keywords := ks;
     filters :=
       {| languages := langs; minLikes := 0; minRetweets := 0;
          minReplies := 0; hasMedia := any; hasLinks := any;
          excludeKeywords := xs |};
     pushSettings :=
       {| channels := [telegram]; frequency := hourly;
          activeHours := {| start := s; end_ := e |};
          maxTweetsPerPush := 5 |};
     isActive := true |}.

(** A tweet with the schema defaults and the given engagement, author
    and creation time. *)
Definition tweet (likes retweets replies quotes followers : Z)
           (isVerified : bool) (created : Z) (language : string) : Tweet.t :=
  {| Tweet.tweetId := "1"; Tweet.text := "New AI breakthrough";
     Tweet.author :=
       {| Tweet.verified := isVerified; Tweet.followers_count := followers |};
     Tweet.public_metrics :=
       {| Tweet.retweet_count := retweets; Tweet.like_count := likes;
          Tweet.reply_count := replies; Tweet.quote_count := quotes |};
     Tweet.metadata :=
       {| Tweet.created_at := created; Tweet.lang := language |};
     Tweet.attachments := Some {| Tweet.media_keys := Some [] |};
     Tweet.entities := Some {| Tweet.urls := Some [] |};
     Tweet.hotness_score := 0 |}.

(** A failed attempt with the given retry counter, retry cap and retry
    delay (seconds); the other fields as the schema creates them. *)
Definition failedAttempt (count cap : Z) (delay : Q) : PushRecord.t :=
  PushRecord.set_status PushRecord.failed
    (PushRecord.set_pushConfig
       {| PushRecord.priority := PushRecord.normal;
          PushRecord.retryCount := count; PushRecord.maxRetries := cap;
          PushRecord.retryDelay := delay; PushRecord.timeout := 30 |}
       (PushRecord.create "1" telegram (Some 0))).

(** A failure reported at [at_] and logged for retry one millisecond
    later. *)
Definition cycle (at_ : Z) : PushRecord.Cycle :=
  {| PushRecord.failedAt := at_; PushRecord.code := Some "E_NET";
     PushRecord.message := Some "network error"; PushRecord.raw := None;
     PushRecord.retriedAt := at_ + 1; PushRecord.spent := None |}.

End Samples.

(* ================================================================= *)
(** ** IEEE 754 binary64, the numbers of JavaScript

    The operations are those of the Standard Library's executable
    specification of floating-point arithmetic at precision 53; every
    operation rounds to the nearest double, ties to even. *)

Module Binary64.

Local Open Scope Z_scope.

Definition prec : Z := 53.
Definition emax : Z := 1024.

Definition double : Type := spec_float.

Definition add : double -> double -> double := SFadd prec emax.
Definition sub : double -> double -> double := SFsub prec emax.
Definition mul : double -> double -> double := SFmul prec emax.
Definition div : double -> double -> double := SFdiv prec emax.
Definition neg : double -> double := SFopp.
Definition ltb : double -> double -> bool := SFltb.

(** The double nearest to an integer; exact below [2 ^ 53]. *)
Definition num (z : Z) : double := binary_normalize prec emax z 0 false.

(** The double a decimal literal [n / d] denotes: the nearest one. *)
Definition dec (n d : Z) : double := div (num n) (num d).

(** The double a stored rational number is nearest to. *)
Definition numQ (q : Q) : double := div (num (Qnum q)) (num (Zpos (Qden q))).

(** [Math.min(a, b)]. *)
Definition Math_min (a b : double) : double :=
  match a, b with
  | S754_nan, _ | _, S754_nan => S754_nan
  | _, _ =>
      if ltb a b then a
      else if ltb b a then b
      else match a with
           | S754_zero true => a
           | _ => b
           end
  end.

(** [Math.pow(2, k)] at an integer [k]: the power of two, exact within
    the range of the format. *)
Definition Math_pow2 (k : Z) : double := SFldexp prec emax (num 1) k.

(** What [Math.round] returns: an integer, an infinity or [NaN]. *)
Inductive Rounded :=
| Finite (z : Z)
| Infinite (negative : bool)
| NotANumber.

(** [Math.round]: the floor of [x + 1/2], computed exactly. *)
Definition Math_round (x : double) : Rounded :=
  match x with
  | S754_zero _ => Finite 0
  | S754_infinity s => Infinite s
  | S754_nan => NotANumber
  | S754_finite s m e =>
      let n := if s then Zneg m else Zpos m in
      Finite (if 0 <=? e then n * 2 ^ e
              else (2 * n + 2 ^ (- e)) / 2 ^ (- e + 1))
  end.

(** [new Date(v)]: the time value is [v] truncated towards zero; [None]
    is the invalid date of a [v] that is not finite or lies beyond
    8.64e15 milliseconds. *)
Definition new_Date (v : double) : option Z :=
  match v with
  | S754_zero _ => Some 0
  | S754_finite s m e =>
      let t := if 0 <=? e then Zpos m * 2 ^ e else Zpos m / 2 ^ (- e) in
      if 8640000000000000 <? t then None
      else Some (if s then - t else t)
  | _ => None
  end.

(** [Math.exp] is left to the implementation except at zero, where the
    language fixes [Math.exp(+0) = Math.exp(-0) = 1].  This is the part
    that is fixed; elsewhere it answers [NaN]. *)
Definition expAtZero (x : double) : double :=
  match x with
  | S754_zero _ => num 1
  | _ => S754_nan
  end.

End Binary64.

(* ================================================================= *)
(** ** The score in binary64 ([src/models/Tweet.js]) *)

Module Tweet64.

Import Binary64.
Local Open Scope Z_scope.

Section Exp.

(** [Math.exp]. *)
Variable Math_exp : double -> double.

(** [calculateHotnessScore]; [now] is [Date.now()].  The result is the
    returned number. *)
Definition calculateHotnessScore (now : Z) (tw : Tweet.t) : Rounded :=
  let metrics := Tweet.public_metrics tw in
  let ageInHours :=
    div (sub (num now) (num (Tweet.created_at (Tweet.metadata tw))))
        (mul (mul (num 1000) (num 60)) (num 60)) in
  let baseScore :=
    add (add (add (mul (num (Tweet.like_count metrics)) (num 1))
                  (mul (num (Tweet.retweet_count metrics)) (num 2)))
             (mul (num (Tweet.reply_count metrics)) (dec 15 10)))
        (mul (num (Tweet.quote_count metrics)) (dec 18 10)) in
  let authorWeight :=
    Math_min (div (num (Tweet.followers_count (Tweet.author tw))) (num 10000))
             (num 5) in
  let baseScore := mul baseScore (add (num 1) (mul authorWeight (dec 1 10))) in
  let baseScore :=
    if Tweet.verified (Tweet.author tw) then mul baseScore (dec 12 10)
    else baseScore in
  let timeDecay := Math_exp (div (neg ageInHours) (num 24)) in
  Math_round (mul baseScore timeDecay).

(** *** The formula in the words of the specification, in binary64 *)

Definition ageHours (now : Z) (tw : Tweet.t) : double :=
  div (sub (num now) (num (Tweet.created_at (Tweet.metadata tw))))
      (num 3600000).

Definition base (tw : Tweet.t) : double :=
  let m := Tweet.public_metrics tw in
  add (add (add (mul (num 1) (num (Tweet.like_count m)))
                (mul (num 2) (num (Tweet.retweet_count m))))
           (mul (dec 15 10) (num (Tweet.reply_count m))))
      (mul (dec 18 10) (num (Tweet.quote_count m))).

Definition influence (tw : Tweet.t) : double :=
  add (num 1)
      (mul (dec 1 10)
           (Math_min
              (div (num (Tweet.followers_count (Tweet.author tw)))
                   (num 10000))
              (num 5))).

(** The verified factor: times 1.2 for a verified author, the number
    itself otherwise. *)
Definition verifiedBoost (tw : Tweet.t) (x : double) : double :=
  if Tweet.verified (Tweet.author tw) then mul x (dec 12 10) else x.

Definition decay (age : double) : double :=
  Math_exp (div (neg age) (num 24)).

End Exp.

End Tweet64.

(* ================================================================= *)
(** ** The next retry time in binary64 (the [PushRecord] model) *)

Module PushRecord64.

Import Binary64.
Local Open Scope Z_scope.

(** [getNextRetryTime]; [now] is [Date.now()] and [random] the double
    that [Math.random()] returns.  The outer [None] is the returned
    [null], the inner one an invalid date. *)
Definition getNextRetryTime (now : Z) (random : double) (r : PushRecord.t)
  : option (option Z) :=
  if negb (PushRecord.canRetry r) then None
  else
    let baseDelay :=
      mul (numQ (PushRecord.retryDelay (PushRecord.pushConfig r)))
          (num 1000) in
    let exponentialDelay :=
      mul baseDelay
          (Math_pow2 (PushRecord.retryCount (PushRecord.pushConfig r) - 1)) in
    let jitter := mul random (num 1000) in
    Some (new_Date (add (add (num now) exponentialDelay) jitter)).


End PushRecord64.

(* ================================================================= *)
(** ** Further built-ins *)

Module JSExt.

Local Open Scope string_scope.

(** Truthiness of a value that is a string or [null]/[undefined]: the
    empty string is falsy like [null]. *)
Definition truthy (o : option string) : bool :=
  match o with
  | Some s => negb (String.eqb s "")
  | None => false
  end.

(** [x < y] on numbers. *)
Definition lt (x y : Q) : bool := negb (Qle_bool y x).

(** A string as JavaScript holds it: its UTF-16 code units.  [length]
    and [substring] count code units. *)
Definition utf16 : Type := list N.

(** [s.length]. *)
Definition length (s : utf16) : Z := Z.of_nat (List.length s).

(** [s.substring(0, n)]. *)
Definition substring0 (n : nat) (s : utf16) : utf16 := firstn n s.

(** The literal ['...']. *)
Definition dots : utf16 := [46; 46; 46]%N.

End JSExt.

(* ================================================================= *)
(** ** Tweet: the methods beside the score ([src/models/Tweet.js]) *)

Module TweetDoc.

(** The status of one channel inside [pushStatus.pushChannels]. *)
Inductive ChannelStatus := pending | success | failed.

(** One element of [pushStatus.pushChannels]; its [pushedAt] field is
    renamed, the name being taken by [PushStatus]. *)
Record ChannelPush := {
  channel : Subscription.Channel;
  status : ChannelStatus;
  channel_pushedAt : option Z;
  error : option string;
  messageId : option string
}.

Record PushStatus := {
  isPushed : bool;
  pushedAt : option Z;
  pushChannels : list ChannelPush;
  totalPushes : Z
}.

(** The document, with the fields the methods below read or write.  The
    text is held as code units; the identifiers are only copied. *)
Record t := {
  tweetId : string;
  text : JSExt.utf16;
  username : string;
  public_metrics : Tweet.PublicMetrics;
  created_at : Z;
  hotness_score : Z;
  spam_score : Q;
  pushStatus : PushStatus
}.

Record Summary := {
  summary_id : string;
  summary_text : JSExt.utf16;
  summary_author : string;
  summary_metrics : Tweet.PublicMetrics;
  summary_created_at : Z;
  summary_hotness_score : Z
}.

Definition channel_eqb (a b : Subscription.Channel) : bool :=
  match a, b with
  | Subscription.wechat, Subscription.wechat
  | Subscription.telegram, Subscription.telegram
  | Subscription.discord, Subscription.discord => true
  | _, _ => false
  end.

Definition status_eqb (a b : ChannelStatus) : bool :=
  match a, b with
  | pending, pending | success, success | failed, failed => true
  | _, _ => false
  end.

Local Open Scope Z_scope.

Definition isHighQuality (d : t) : bool :=
  let metrics := public_metrics d in
  let totalEngagement :=
    Tweet.like_count metrics + Tweet.retweet_count metrics
    + Tweet.reply_count metrics in
  if totalEngagement <? 5 then false
  else if JSExt.length (text d) <? 20 then false
  else if JSExt.lt (7 # 10) (spam_score d) then false
  else true.

Definition getSummary (d : t) : Summary :=
  let summary := text d in
  let summary :=
    if 100 <? JSExt.length summary
    then JSExt.substring0 97 summary ++ JSExt.dots
    else summary in
  {| summary_id := tweetId d;
     summary_text := summary;
     summary_author := username d;
     summary_metrics := public_metrics d;
     summary_created_at := created_at d;
     summary_hotness_score := hotness_score d |}.

(** Assignment through the reference that [find] returned: the first
    element for [channel_] is replaced by its updated version. *)
Fixpoint assignFirst (channel_ : Subscription.Channel)
         (f : ChannelPush -> ChannelPush) (chs : list ChannelPush)
  : list ChannelPush :=
  match chs with
  | [] => []
  | ch :: rest =>
      if channel_eqb (channel ch) channel_ then f ch :: rest
      else ch :: assignFirst channel_ f rest
  end.

(** [updatePushStatus]; [now] and [pushedNow] are the two values of
    [new Date()], read for the channel and for the tweet.  [messageId_] and
    [error_] default to [null]. *)
Definition updatePushStatus (now pushedNow : Z)
           (channel_ : Subscription.Channel) (status_ : ChannelStatus)
           (messageId_ error_ : option string) (ps : PushStatus)
  : PushStatus :=
  let channelStatus :=
    find (fun ch => channel_eqb (channel ch) channel_) (pushChannels ps) in
  let pushChannels_ :=
    match channelStatus with
    | Some _ =>
        assignFirst channel_
          (fun ch =>
             {| channel := channel ch; status := status_;
                channel_pushedAt := Some now;
                error := if JSExt.truthy error_ then error_ else error ch;
                messageId :=
                  if JSExt.truthy messageId_ then messageId_
                  else messageId ch |})
          (pushChannels ps)
    | None =>
        pushChannels ps ++
        [ {| channel := channel_; status := status_;
             channel_pushedAt := Some now; error := error_;
             messageId := messageId_ |} ]
    end in
  let allSuccess :=
    forallb (fun ch => status_eqb (status ch) success) pushChannels_ in
  let anySuccess :=
    existsb (fun ch => status_eqb (status ch) success) pushChannels_ in
  {| isPushed := if allSuccess then true else isPushed ps;
     pushedAt := if allSuccess then Some pushedNow else pushedAt ps;
     pushChannels := pushChannels_;
     totalPushes := if anySuccess then totalPushes ps + 1 else totalPushes ps |}.

(** One call of [updatePushStatus] with its arguments. *)
Record Update := {
  at_ : Z;
  pushed_at : Z;
  on_channel : Subscription.Channel;
  new_status : ChannelStatus;
  with_messageId : option string;
  with_error : option string
}.

Definition apply (u : Update) (ps : PushStatus) : PushStatus :=
  updatePushStatus (at_ u) (pushed_at u) (on_channel u) (new_status u)
    (with_messageId u) (with_error u) ps.

Definition applyAll (us : list Update) (ps : PushStatus) : PushStatus :=
  fold_left (fun acc u => apply u acc) us ps.

(** [pushStatus] as the schema creates it. *)
Definition fresh : PushStatus :=
  {| isPushed := false; pushedAt := None; pushChannels := [];
     totalPushes := 0 |}.

(** The entry [find] returns for a channel. *)
Definition lookup (channel_ : Subscription.Channel) (ps : PushStatus)
  : option ChannelPush :=
  find (fun ch => channel_eqb (channel ch) channel_) (pushChannels ps).

End TweetDoc.

(* ================================================================= *)
(** ** Subscription: validation and statistics
    ([src/models/Subscription.js]) *)

Module SubscriptionDoc.

Local Open Scope string_scope.
Local Open Scope Z_scope.

Record Stats := {
  totalMatches : Z;
  totalPushes : Z;
  lastMatchAt : option Z;
  lastPushAt : option Z
}.

(** The errors the two [pre('save')] hooks pass to [next]. *)
Inductive SaveError := NoKeyword | TooManyKeywords | NoChannel.

Definition checkKeywords (sub : Subscription.t) : option SaveError :=
  if Z.of_nat (List.length (Subscription.keywords sub)) =? 0
  then Some NoKeyword
  else if 20 <? Z.of_nat (List.length (Subscription.keywords sub))
  then Some TooManyKeywords
  else None.

Definition checkChannels (sub : Subscription.t) : option SaveError :=
  if Z.of_nat (List.length
                 (Subscription.channels (Subscription.pushSettings sub))) =? 0
  then Some NoChannel
  else None.

(** The hooks run in the order they are registered; the first error ends
    the save. *)
Definition preSave (sub : Subscription.t) : option SaveError :=
  match checkKeywords sub with
  | Some e => Some e
  | None => checkChannels sub
  end.

(** [updateStats(type)]; [now] is [new Date()]. *)
Definition updateStats (now : Z) (type : string) (st : Stats) : Stats :=
  if String.eqb type "match" then
    {| totalMatches := totalMatches st + 1; totalPushes := totalPushes st;
       lastMatchAt := Some now; lastPushAt := lastPushAt st |}
  else if String.eqb type "push" then
    {| totalMatches := totalMatches st; totalPushes := totalPushes st + 1;
       lastMatchAt := lastMatchAt st; lastPushAt := Some now |}
  else st.

Definition updateStatsAll (calls : list (Z * string)) (st : Stats) : Stats :=
  fold_left (fun acc c => updateStats (fst c) (snd c) acc) calls st.

(** The number of calls [updateStats(type)] among [calls]. *)
Definition countOf (type : string) (calls : list (Z * string)) : Z :=
  Z.of_nat (List.length (filter (fun c => String.eqb (snd c) type) calls)).

(** A subscription whose keywords and exclude keywords are replaced by
    their images under [f]. *)
Definition mapKeywords (f : string -> string) (sub : Subscription.t)
  : Subscription.t :=
  {| Subscription.name := Subscription.name sub;
     Subscription.keywords := map f (Subscription.keywords sub);
     Subscription.filters :=
       {| Subscription.languages :=
            Subscription.languages (Subscription.filters sub);
          Subscription.minLikes :=
            Subscription.minLikes (Subscription.filters sub);
          Subscription.minRetweets :=
            Subscription.minRetweets (Subscription.filters sub);
          Subscription.minReplies :=
            Subscription.minReplies (Subscription.filters sub);
          Subscription.hasMedia :=
            Subscription.hasMedia (Subscription.filters sub);
          Subscription.hasLinks :=
            Subscription.hasLinks (Subscription.filters sub);
          Subscription.excludeKeywords :=
            map f (Subscription.excludeKeywords (Subscription.filters sub)) |};
     Subscription.pushSettings := Subscription.pushSettings sub;
     Subscription.isActive := Subscription.isActive sub |}.

(** Whether a tweet carries media, and links, as [matchesFilters] tests
    it. *)
Definition hasMediaKeys (tweet : Tweet.t) : bool :=
  Subscription.nonEmptyField (Tweet.attachments tweet) Tweet.media_keys.

Definition hasUrls (tweet : Tweet.t) : bool :=
  Subscription.nonEmptyField (Tweet.entities tweet) Tweet.urls.

(** The hours of the day, for counting a window's length. *)
Definition hoursOfDay : list Z := map Z.of_nat (seq 0 24).

(** A subscription's record with another active-hours window. *)
Definition withActiveHours (s e : Z) (sub : Subscription.t) : Subscription.t :=
  {| Subscription.name := Subscription.name sub;
     Subscription.keywords := Subscription.keywords sub;
     Subscription.filters := Subscription.filters sub;
     Subscription.pushSettings :=
       {| Subscription.channels :=
            Subscription.channels (Subscription.pushSettings sub);
          Subscription.frequency :=
            Subscription.frequency (Subscription.pushSettings sub);
          Subscription.activeHours :=
            {| Subscription.start := s; Subscription.end_ := e |};
          Subscription.maxTweetsPerPush :=
            Subscription.maxTweetsPerPush (Subscription.pushSettings sub) |};
     Subscription.isActive := Subscription.isActive sub |}.

(** The number of hours of the day at which the subscription is in its
    active hours. *)
Definition activeHourCount (sub : Subscription.t) : Z :=
  Z.of_nat
    (List.length
       (filter (fun h => Subscription.isInActiveHours h sub) hoursOfDay)).

End SubscriptionDoc.

(* ================================================================= *)
(** ** User: login attempts and lock ([src/models/User.js]) *)

Module User.

Local Open Scope Z_scope.

Record Security := {
  loginAttempts : Z;
  lockUntil : option Z
}.

(** [isLocked]; [now] is [Date.now()]. *)
Definition isLocked (now : Z) (s : Security) : bool :=
  match lockUntil s with
  | Some l => l >? now
  | None => false
  end.

(** The update document handed to [updateOne]: the operators on
    [security.loginAttempts] and [security.lockUntil]. *)
Record UpdateOps := {
  unset_lockUntil : bool;
  set_loginAttempts : option Z;
  inc_loginAttempts : option Z;
  set_lockUntil : option Z
}.

(** [incLoginAttempts]; [now1], [now2] and [now3] are the values of
    [Date.now()] in the expiry test, inside [isLocked] and in the new
    lock. *)
Definition incLoginAttempts (now1 now2 now3 : Z) (s : Security) : UpdateOps :=
  if match lockUntil s with Some l => l <? now1 | None => false end
  then
    {| unset_lockUntil := true; set_loginAttempts := Some 1;
       inc_loginAttempts := None; set_lockUntil := None |}
  else
    if (loginAttempts s + 1 >=? 5) && negb (isLocked now2 s)
    then
      {| unset_lockUntil := false; set_loginAttempts := None;
         inc_loginAttempts := Some 1;
         set_lockUntil := Some (now3 + 2 * 60 * 60 * 1000) |}
    else
      {| unset_lockUntil := false; set_loginAttempts := None;
         inc_loginAttempts := Some 1; set_lockUntil := None |}.

(** What the operators [$unset], [$set] and [$inc] do to the stored
    fields; an unset [lockUntil] reads back as the schema default
    [null]. *)
Definition applyOps (u : UpdateOps) (s : Security) : Security :=
  {| loginAttempts :=
       match set_loginAttempts u with
       | Some v => v
       | None =>
           match inc_loginAttempts u with
           | Some d => loginAttempts s + d
           | None => loginAttempts s
           end
       end;
     lockUntil :=
       if unset_lockUntil u then None
       else match set_lockUntil u with
            | Some l => Some l
            | None => lockUntil s
            end |}.

(** One failed login as stored: the update of [incLoginAttempts] applied
    to the fields it was computed from. *)
Definition failedLogin (now1 now2 now3 : Z) (s : Security) : Security :=
  applyOps (incLoginAttempts now1 now2 now3 s) s.

(** Failed logins at successive clock readings. *)
Definition failedLogins (times : list (Z * Z * Z)) (s : Security) : Security :=
  fold_left (fun acc '(t1, t2, t3) => failedLogin t1 t2 t3 acc) times s.

(** [security] as the schema creates it. *)
Definition fresh : Security := {| loginAttempts := 0; lockUntil := None |}.

End User.

(* ================================================================= *)
(** ** SystemConfig ([src/models/SystemConfig.js]) *)

Module SystemConfig.

Local Open Scope string_scope.
Local Open Scope Z_scope.

(** A [Mixed] value.  Numbers are exact rationals; an object is opaque. *)
#[warnings="-register-all"]
Inductive Value :=
| VUndefined
| VNull
| VBoolean (b : bool)
| VNumber (q : Q)
| VString (s : string)
| VArray (items : list Value)
| VDate (time : Z)
| VObject (tag : string).

(** The names of [dataType] and the results of [typeof]/[Array.isArray]. *)
Inductive TypeName :=
| Tstring | Tnumber | Tboolean | Tarray | Tobject | Tdate | Tundefined.

Definition typeName_eqb (a b : TypeName) : bool :=
  match a, b with
  | Tstring, Tstring | Tnumber, Tnumber | Tboolean, Tboolean
  | Tarray, Tarray | Tobject, Tobject | Tdate, Tdate
  | Tundefined, Tundefined => true
  | _, _ => false
  end.

(** [Array.isArray(v) ? 'array' : typeof v]. *)
Definition actualTypeOf (v : Value) : TypeName :=
  match v with
  | VUndefined => Tundefined
  | VNull => Tobject
  | VBoolean _ => Tboolean
  | VNumber _ => Tnumber
  | VString _ => Tstring
  | VArray _ => Tarray
  | VDate _ => Tobject
  | VObject _ => Tobject
  end.

Record Validation := {
  required : bool;
  min : option Q;
  max : option Q;
  minLength : option Z;
  maxLength : option Z;
  pattern : option string;
  enum : list string
}.

Record HistoryEntry := {
  entry_value : Value;
  changedBy : string;
  changedAt : Z;
  reason : string;
  version : Z
}.

Record AccessStats := {
  readCount : Z;
  writeCount : Z;
  lastReadAt : option Z;
  lastWriteAt : option Z
}.

Record t := {
  key : string;
  value : Value;
  dataType : TypeName;
  validation : Validation;
  defaultValue : Value;
  history : list HistoryEntry;
  lastUpdatedBy : string;
  accessStats : AccessStats
}.

(** The errors [validateValue] and [resetToDefault] throw. *)
Inductive ConfigError :=
| IsRequired
| TypeMismatch (expected actual : TypeName)
| BelowMin
| AboveMax
| TooShort
| TooLong
| InvalidPattern
| PatternMismatch
| NotInEnum
| NoDefault.

Definition isNullish (v : Value) : bool :=
  match v with
  | VUndefined | VNull => true
  | _ => false
  end.

Definition isNull (v : Value) : bool :=
  match v with
  | VNull => true
  | _ => false
  end.

Section Validate.

(** [new RegExp(pattern).test(s)]; [None] when the pattern does not
    compile and the constructor throws. *)
Variable regexTest : string -> string -> option bool.

(** [v == s] for a string [s] and a value [v] that is a boolean, a
    number, an array, a date or an object: the comparison converts both
    sides ([2 == '2'], [true == '1'], [['a'] == 'a']). *)
Variable looselyEquals : Value -> string -> bool.

(** [validation.enum.includes(v)].  The list is a Mongoose array of
    strings, whose [includes] searches with [==]: a string is found when
    the list holds it, [null] and [undefined] are equal to no string, and
    any other value is found when it is loosely equal to an element. *)
Definition enumIncludes (xs : list string) (v : Value) : bool :=
  match v with
  | VString s => existsb (String.eqb s) xs
  | VUndefined | VNull => false
  | _ => existsb (looselyEquals v) xs
  end.

Definition validateValue (c : t) (newValue : Value) : ConfigError + unit :=
  let validation := validation c in
  if required validation && isNullish newValue then inl IsRequired
  else
    let expectedType := dataType c in
    let actualType := actualTypeOf newValue in
    if negb (typeName_eqb actualType expectedType) && negb (isNull newValue)
    then inl (TypeMismatch expectedType actualType)
    else
      let numberCheck : option ConfigError :=
        match expectedType, newValue with
        | Tnumber, VNumber q =>
            if match min validation with
               | Some m => JSExt.lt q m
               | None => false
               end
            then Some BelowMin
            else if match max validation with
                    | Some M => JSExt.lt M q
                    | None => false
                    end
            then Some AboveMax
            else None
        | _, _ => None
        end in
      match numberCheck with
      | Some e => inl e
      | None =>
          let stringCheck : option ConfigError :=
            match expectedType, newValue with
            | Tstring, VString s =>
                let len := Z.of_nat (String.length s) in
                if match minLength validation with
                   | Some m => len <? m
                   | None => false
                   end
                then Some TooShort
                else if match maxLength validation with
                        | Some M => M <? len
                        | None => false
                        end
                then Some TooLong
                else if JSExt.truthy (pattern validation)
                then match pattern validation with
                     | Some p =>
                         match regexTest p s with
                         | None => Some InvalidPattern
                         | Some true => None
                         | Some false => Some PatternMismatch
                         end
                     | None => None
                     end
                else None
            | _, _ => None
            end in
          match stringCheck with
          | Some e => inl e
          | None =>
              if (0 <? Z.of_nat (List.length (enum validation)))
                 && negb (enumIncludes (enum validation) newValue)
              then inl NotInEnum
              else inr tt
          end
      end.

(** [updateValue]; [now1] and [now2] are the two values of [new Date()].
    A thrown error leaves the configuration as it was. *)
Definition updateValue (now1 now2 : Z) (newValue : Value)
           (changedBy_ reason_ : string) (c : t) : ConfigError + t :=
  match validateValue c newValue with
  | inl e => inl e
  | inr _ =>
      let history_ :=
        (history c ++
         [ {| entry_value := value c; changedBy := changedBy_;
              changedAt := now1; reason := reason_;
              version := Z.of_nat (List.length (history c)) + 1 |} ])%list in
      inr {| key := key c; value := newValue; dataType := dataType c;
             validation := validation c; defaultValue := defaultValue c;
             history := history_; lastUpdatedBy := changedBy_;
             accessStats :=
               {| readCount := readCount (accessStats c);
                  writeCount := writeCount (accessStats c) + 1;
                  lastReadAt := lastReadAt (accessStats c);
                  lastWriteAt := Some now2 |} |}
  end.

(** [resetToDefault]; a missing default is [VUndefined]. *)
Definition resetToDefault (now1 now2 : Z) (changedBy_ : string) (c : t)
  : ConfigError + t :=
  match defaultValue c with
  | VUndefined => inl NoDefault
  | d => updateValue now1 now2 d changedBy_ "reset to default" c
  end.

(** One [updateValue] call with its arguments. *)
Record Change := {
  change_now1 : Z;
  change_now2 : Z;
  change_value : Value;
  change_by : string;
  change_reason : string
}.

(** A series of [updateValue] calls, as [batchUpdate] makes them for one
    key: a call that throws is caught and the configuration stays. *)
Definition updateAll (changes : list Change) (c : t) : t :=
  fold_left
    (fun acc ch =>
       match updateValue (change_now1 ch) (change_now2 ch) (change_value ch)
                         (change_by ch) (change_reason ch) acc with
       | inl _ => acc
       | inr acc' => acc'
       end)
    changes c.

End Validate.

(** [getValue]; returns the value and the configuration with the read
    counted. *)
Definition getValue (now : Z) (c : t) : Value * t :=
  (value c,
   {| key := key c; value := value c; dataType := dataType c;
      validation := validation c; defaultValue := defaultValue c;
      history := history c; lastUpdatedBy := lastUpdatedBy c;
      accessStats :=
        {| readCount := readCount (accessStats c) + 1;
           writeCount := writeCount (accessStats c);
           lastReadAt := Some now;
           lastWriteAt := lastWriteAt (accessStats c) |} |}).

End SystemConfig.

(* ================================================================= *)
(** ** Push records: counting calls *)

Module PushRecordExt.

Local Open Scope string_scope.

(** A call [updateInteraction('click', ...)]. *)
Definition isClick (c : PushRecord.Call) : bool :=
  match c with
  | PushRecord.CallInteraction _ type _ => String.eqb type "click"
  | _ => false
  end.

Definition clicks (cs : list PushRecord.Call) : Z :=
  Z.of_nat (List.length (filter isClick cs)).

(** A delivery that fails, is logged for retry, is started again and
    succeeds. *)
Definition failThenSucceed (t0 t1 t2 t3 t4 : Z)
           (code message : option string) (messageId_ : option string)
           (r : PushRecord.t) : PushRecord.t :=
  PushRecord.markAsSuccess t4 messageId_ None None
    (PushRecord.markAsStarted t3
       (PushRecord.addRetryAttempt t2 message None
          (PushRecord.markAsFailed t1 code message None
             (PushRecord.markAsStarted t0 r)))).

End PushRecordExt.

(* ================================================================= *)
(** ** More sample data *)

Module MoreSamples.

Local Open Scope string_scope.
Local Open Scope Z_scope.

(** A tweet document with the given engagement, text and spam score. *)
Definition doc (likes retweets replies quotes : Z) (body : JSExt.utf16)
           (spam : Q) : TweetDoc.t :=
  {| TweetDoc.tweetId := "1"; TweetDoc.text := body;
     TweetDoc.username := "alice";
     TweetDoc.public_metrics :=
       {| Tweet.retweet_count := retweets; Tweet.like_count := likes;
          Tweet.reply_count := replies; Tweet.quote_count := quotes |};
     TweetDoc.created_at := 0; TweetDoc.hotness_score := 0;
     TweetDoc.spam_score := spam;
     TweetDoc.pushStatus := TweetDoc.fresh |}.

(** A text of seven Chinese characters, each one code unit. *)
Definition sevenHan : JSExt.utf16 :=
  [20154; 24037; 26234; 33021; 22823; 31361; 30772]%N.

(** A push update of a channel at a time. *)
Definition push (at_ : Z) (ch : Subscription.Channel)
           (st : TweetDoc.ChannelStatus) : TweetDoc.Update :=
  {| TweetDoc.at_ := at_; TweetDoc.pushed_at := at_;
     TweetDoc.on_channel := ch; TweetDoc.new_status := st;
     TweetDoc.with_messageId := None; TweetDoc.with_error := None |}.

(** A configuration of the given type, holding [v], with the given
    validation rules and no history. *)
Definition config (ty : SystemConfig.TypeName) (v d : SystemConfig.Value)
           (rules : SystemConfig.Validation) : SystemConfig.t :=
  {| SystemConfig.key := "k"; SystemConfig.value := v;
     SystemConfig.dataType := ty; SystemConfig.validation := rules;
     SystemConfig.defaultValue := d; SystemConfig.history := [];
     SystemConfig.lastUpdatedBy := "system";
     SystemConfig.accessStats :=
       {| SystemConfig.readCount := 0; SystemConfig.writeCount := 0;
          SystemConfig.lastReadAt := None;
          SystemConfig.lastWriteAt := None |} |}.

(** Validation rules as the schema creates them, with a range. *)
Definition rules (lo hi : option Q) : SystemConfig.Validation :=
  {| SystemConfig.required := false; SystemConfig.min := lo;
     SystemConfig.max := hi; SystemConfig.minLength := None;
     SystemConfig.maxLength := None; SystemConfig.pattern := None;
     SystemConfig.enum := [] |}.

(** Validation rules that only list the allowed strings. *)
Definition enumRules (allowed : list string) : SystemConfig.Validation :=
  {| SystemConfig.required := false; SystemConfig.min := None;
     SystemConfig.max := None; SystemConfig.minLength := None;
     SystemConfig.maxLength := None; SystemConfig.pattern := None;
     SystemConfig.enum := allowed |}.

(** A change of the value at a time, by the system. *)
Definition change (at_ : Z) (v : SystemConfig.Value) : SystemConfig.Change :=
  {| SystemConfig.change_now1 := at_; SystemConfig.change_now2 := at_;
     SystemConfig.change_value := v; SystemConfig.change_by := "system";
     SystemConfig.change_reason := "" |}.

(** A loose equality that equates nothing; enough where the value is a
    string or no enum is configured. *)
Definition noLooseMatch (v : SystemConfig.Value) (s : string) : bool := false.

(** A regular-expression engine that accepts every string; enough where
    no pattern is configured. *)
Definition anyRegex (p s : string) : option bool := Some true.

End MoreSamples.

(* ================================================================= *)
(** * Properties *)

(** ** Strings *)

Section StringFacts.

Local Open Scope string_scope.

Lemma startsWith_spec (search text : string) :
  JS.startsWith text search = true <-> exists after, text = search ++ after.
Proof.
  revert text; induction search as [|a search IH]; intros text; simpl.
  - split; [intros _; now exists text | reflexivity].
  - destruct text as [|b text].
    + split; [discriminate | intros [after H]; discriminate].
    + rewrite andb_true_iff, Ascii.eqb_eq, IH. split.
      * intros [-> [after ->]]. now exists after.
      * intros [after H]. injection H as -> ->. split; [reflexivity|now exists after].
Qed.

Lemma includes_spec (text search : string) :
  JS.includes text search = true <-> JS.Substring search text.
Proof.
  unfold JS.Substring.
  induction text as [|c text IH]; simpl; rewrite orb_true_iff, startsWith_spec.
  - split.
    + intros [[after H] | H]; [|discriminate]. now exists "", after.
    + intros [before [after H]]. left.
      destruct before; [now exists after | discriminate].
  - rewrite IH. split.
    + intros [[after H] | [before [after H]]].
      * now exists "", after.
      * exists (String c before), after. simpl. now rewrite H.
    + intros [before [after H]]. destruct before as [|b before]; simpl in H.
      * left. now exists after.
      * right. injection H as _ H. now exists before, after.
Qed.

Lemma includes_false (text search : string) :
  JS.includes text search = false <-> ~ JS.Substring search text.
Proof.
  rewrite <- includes_spec. destruct (JS.includes text search); split;
    congruence.
Qed.

End StringFacts.

(** ** Subscription matching *)

Section SubscriptionFacts.

Import Subscription.
Local Open Scope string_scope.

Lemma existsb_includes (lowerText : string) (lower : string -> string)
      (ks : list string) :
  existsb (fun keyword => JS.includes lowerText (lower keyword)) ks = true <->
  exists k, In k ks /\ JS.Substring (lower k) lowerText.
Proof.
  rewrite existsb_exists. split; intros [k [Hin H]]; exists k; split; trivial;
    now apply includes_spec.
Qed.

Lemma matchesKeywords_spec (toLowerCase : string -> string) (sub : t)
      (text : string) :
  matchesKeywords toLowerCase sub text = true <->
  (exists k, In k (keywords sub) /\
             JS.Substring (toLowerCase k) (toLowerCase text)) /\
  (forall k, In k (excludeKeywords (filters sub)) ->
             ~ JS.Substring (toLowerCase k) (toLowerCase text)).
Proof.
  unfold matchesKeywords.
  pose proof (existsb_includes (toLowerCase text) toLowerCase (keywords sub))
    as Hk.
  pose proof (existsb_includes (toLowerCase text) toLowerCase
                               (excludeKeywords (filters sub))) as Hx.
  destruct (existsb _ (keywords sub)); simpl.
  - destruct (existsb _ (excludeKeywords (filters sub))); simpl.
    + split; [discriminate|]. intros [_ Hno].
      destruct (proj1 Hx eq_refl) as [k [Hin Hs]]. now elim (Hno k).
    + split; [|reflexivity]. intros _. split; [now apply Hk|].
      intros k Hin Hs.
      assert (false = true) by (apply Hx; now exists k). discriminate.
  - split; [discriminate|]. intros [Hex _].
    assert (false = true) by now apply Hk. discriminate.
Qed.

(** C2.  [matchesKeywords] holds exactly when the lower-cased text
    contains some lower-cased required keyword as a substring and no
    lower-cased exclude keyword; and with keywords [["AI"]] and exclude
    keywords [["spam"]] the text "New AI breakthrough" matches while
    "AI spam deal" does not. *)
Theorem matchesKeywords_correct :
  (forall (toLowerCase : string -> string) (sub : t) (text : string),
      matchesKeywords toLowerCase sub text = true <->
      (exists k, In k (keywords sub) /\
                 JS.Substring (toLowerCase k) (toLowerCase text)) /\
      (forall k, In k (excludeKeywords (filters sub)) ->
                 ~ JS.Substring (toLowerCase k) (toLowerCase text)))
  /\
  (forall sub : t,
      keywords sub = ["AI"] ->
      excludeKeywords (filters sub) = ["spam"] ->
      matchesKeywords JS.asciiLower sub "New AI breakthrough" = true /\
      matchesKeywords JS.asciiLower sub "AI spam deal" = false).
Proof.
  split.
  - exact matchesKeywords_spec.
  - intros sub Hk Hx. unfold matchesKeywords. rewrite Hk, Hx.
    split; vm_compute; reflexivity.
Qed.

Lemma matchesKeywords_correct_witness :
  matchesKeywords JS.asciiLower
    (Samples.subscription ["AI"] ["spam"] ["zh"; "en"] 9 22)
    "New AI breakthrough" = true /\
  matchesKeywords JS.asciiLower
    (Samples.subscription ["AI"] ["spam"] ["zh"; "en"] 9 22)
    "AI spam deal" = false.
Proof.
  apply (proj2 matchesKeywords_correct
           (Samples.subscription ["AI"] ["spam"] ["zh"; "en"] 9 22));
    reflexivity.
Defined.

End SubscriptionFacts.

Section ActiveHoursFacts.

Import Subscription.
Local Open Scope Z_scope.

Lemma isInActiveHours_sameDay (sub : t) (h : Z) :
  start (activeHours (pushSettings sub)) <= end_ (activeHours (pushSettings sub)) ->
  (isInActiveHours h sub = true <->
   start (activeHours (pushSettings sub)) <= h <= end_ (activeHours (pushSettings sub))).
Proof.
  intros Hle. unfold isInActiveHours.
  destruct (Z.leb_spec (start (activeHours (pushSettings sub)))
                       (end_ (activeHours (pushSettings sub)))); [|lia].
  rewrite andb_true_iff, Z.geb_le, Z.leb_le. lia.
Qed.

Lemma isInActiveHours_overnight (sub : t) (h : Z) :
  start (activeHours (pushSettings sub)) > end_ (activeHours (pushSettings sub)) ->
  (isInActiveHours h sub = true <->
   h >= start (activeHours (pushSettings sub)) \/
   h <= end_ (activeHours (pushSettings sub))).
Proof.
  intros Hgt. unfold isInActiveHours.
  destruct (Z.leb_spec (start (activeHours (pushSettings sub)))
                       (end_ (activeHours (pushSettings sub)))); [lia|].
  rewrite orb_true_iff, Z.geb_le, Z.leb_le. lia.
Qed.

(** C3.  With [start <= end] the subscription is in its active hours
    exactly when [start <= hour <= end]; with [start > end] exactly when
    [hour >= start] or [hour <= end].  For the window 22-6 the hours 23 and
    3 are inside and 10 is outside; for the window 9-17 the hours 9 and 17
    are inside and 8 and 18 are outside. *)
Theorem isInActiveHours_correct :
  (forall (sub : t) (h : Z),
      start (activeHours (pushSettings sub))
        <= end_ (activeHours (pushSettings sub)) ->
      (isInActiveHours h sub = true <->
       start (activeHours (pushSettings sub)) <= h
         <= end_ (activeHours (pushSettings sub))))
  /\
  (forall (sub : t) (h : Z),
      start (activeHours (pushSettings sub))
        > end_ (activeHours (pushSettings sub)) ->
      (isInActiveHours h sub = true <->
       h >= start (activeHours (pushSettings sub)) \/
       h <= end_ (activeHours (pushSettings sub))))
  /\
  (forall sub : t,
      activeHours (pushSettings sub) = {| start := 22; end_ := 6 |} ->
      isInActiveHours 23 sub = true /\ isInActiveHours 3 sub = true /\
      isInActiveHours 10 sub = false)
  /\
  (forall sub : t,
      activeHours (pushSettings sub) = {| start := 9; end_ := 17 |} ->
      isInActiveHours 8 sub = false /\ isInActiveHours 9 sub = true /\
      isInActiveHours 17 sub = true /\ isInActiveHours 18 sub = false).
Proof.
  split; [exact isInActiveHours_sameDay|].
  split; [exact isInActiveHours_overnight|].
  split; intros sub H; unfold isInActiveHours; rewrite H; simpl;
    repeat split; reflexivity.
Qed.

Lemma isInActiveHours_correct_witness :
  (isInActiveHours 12 (Samples.subscription [] [] [] 9 17) = true <->
   9 <= 12 <= 17) /\
  (isInActiveHours 23 (Samples.subscription [] [] [] 22 6) = true <->
   23 >= 22 \/ 23 <= 6) /\
  (isInActiveHours 23 (Samples.subscription [] [] [] 22 6) = true /\
   isInActiveHours 3 (Samples.subscription [] [] [] 22 6) = true /\
   isInActiveHours 10 (Samples.subscription [] [] [] 22 6) = false) /\
  (isInActiveHours 8 (Samples.subscription [] [] [] 9 17) = false /\
   isInActiveHours 9 (Samples.subscription [] [] [] 9 17) = true /\
   isInActiveHours 17 (Samples.subscription [] [] [] 9 17) = true /\
   isInActiveHours 18 (Samples.subscription [] [] [] 9 17) = false).
Proof.
  destruct isInActiveHours_correct as [Hday [Hnight [Hwrap Hwork]]].
  split; [apply (Hday (Samples.subscription [] [] [] 9 17) 12); simpl; lia|].
  split; [apply (Hnight (Samples.subscription [] [] [] 22 6) 23); simpl; lia|].
  split; [apply (Hwrap (Samples.subscription [] [] [] 22 6)); reflexivity|].
  apply (Hwork (Samples.subscription [] [] [] 9 17)); reflexivity.
Defined.

End ActiveHoursFacts.

Section FilterFacts.

Import Subscription.
Local Open Scope string_scope.
Local Open Scope Z_scope.

(** [matchesFilters] never reads [filters.languages] nor the tweet's
    language tag. *)
Lemma matchesFilters_language_blind (sub : t) (tweet : Tweet.t)
      (langs : list string) (language : string) :
  matchesFilters
    {| name := name sub; keywords := keywords sub;
       filters :=
         {| languages := langs; minLikes := minLikes (filters sub);
            minRetweets := minRetweets (filters sub);
            minReplies := minReplies (filters sub);
            hasMedia := hasMedia (filters sub);
            hasLinks := hasLinks (filters sub);
            excludeKeywords := excludeKeywords (filters sub) |};
       pushSettings := pushSettings sub; isActive := isActive sub |}
    {| Tweet.tweetId := Tweet.tweetId tweet; Tweet.text := Tweet.text tweet;
       Tweet.author := Tweet.author tweet;
       Tweet.public_metrics := Tweet.public_metrics tweet;
       Tweet.metadata :=
         {| Tweet.created_at := Tweet.created_at (Tweet.metadata tweet);
            Tweet.lang := language |};
       Tweet.attachments := Tweet.attachments tweet;
       Tweet.entities := Tweet.entities tweet;
       Tweet.hotness_score := Tweet.hotness_score tweet |}
  = matchesFilters sub tweet.
Proof. reflexivity. Qed.

(** C8.  The language filter is not applied: a subscription that allows
    only "zh" accepts a tweet tagged "en" (every other filter being at its
    default), where the specification requires [false]. *)
Theorem matchesFilters_skips_languages :
  let sub := Samples.subscription ["AI"] [] ["zh"] 9 22 in
  let tweet := Samples.tweet 0 0 0 0 0 false 0 "en" in
  languages (filters sub) <> [] /\
  ~ In (Tweet.lang (Tweet.metadata tweet)) (languages (filters sub)) /\
  matchesFilters sub tweet = true.
Proof.
  simpl. split; [discriminate|]. split; [|reflexivity].
  intros [H|[]]. discriminate.
Qed.

End FilterFacts.

(** ** Push records *)

Section PushRecordFacts.

Import PushRecord.
Local Open Scope Z_scope.

Lemma markAsSuccess_status now m rt raw r :
  status (markAsSuccess now m rt raw r) = success.
Proof. unfold markAsSuccess. simpl. destruct (startedAt (timing r)); reflexivity. Qed.

Lemma markAsSuccess_completedAt now m rt raw r :
  completedAt (timing (markAsSuccess now m rt raw r)) = Some now.
Proof. unfold markAsSuccess. simpl. destruct (startedAt (timing r)); reflexivity. Qed.

Lemma markAsFailed_status now c m raw r :
  status (markAsFailed now c m raw r) = failed.
Proof. unfold markAsFailed. simpl. destruct (startedAt (timing r)); reflexivity. Qed.

Lemma markAsFailed_pushConfig now c m raw r :
  pushConfig (markAsFailed now c m raw r) = pushConfig r.
Proof. unfold markAsFailed. simpl. destruct (startedAt (timing r)); reflexivity. Qed.

Lemma markAsFailed_retryHistory now c m raw r :
  retryHistory (markAsFailed now c m raw r) = retryHistory r.
Proof. unfold markAsFailed. simpl. destruct (startedAt (timing r)); reflexivity. Qed.

Lemma markAsSuccess_pushConfig now m rt raw r :
  pushConfig (markAsSuccess now m rt raw r) = pushConfig r.
Proof. unfold markAsSuccess. simpl. destruct (startedAt (timing r)); reflexivity. Qed.

Lemma markAsSuccess_retryHistory now m rt raw r :
  retryHistory (markAsSuccess now m rt raw r) = retryHistory r.
Proof. unfold markAsSuccess. simpl. destruct (startedAt (timing r)); reflexivity. Qed.

Lemma markAsStarted_pushConfig now r :
  pushConfig (markAsStarted now r) = pushConfig r.
Proof. unfold markAsStarted. simpl. destruct (scheduledAt (timing r)); reflexivity. Qed.

Lemma markAsStarted_retryHistory now r :
  retryHistory (markAsStarted now r) = retryHistory r.
Proof. unfold markAsStarted. simpl. destruct (scheduledAt (timing r)); reflexivity. Qed.

Lemma updateInteraction_pushConfig now ty fb r :
  pushConfig (updateInteraction now ty fb r) = pushConfig r.
Proof.
  unfold updateInteraction.
  repeat match goal with |- context [if ?b then _ else _] => destruct b end;
    reflexivity.
Qed.

Lemma updateInteraction_retryHistory now ty fb r :
  retryHistory (updateInteraction now ty fb r) = retryHistory r.
Proof.
  unfold updateInteraction.
  repeat match goal with |- context [if ?b then _ else _] => destruct b end;
    reflexivity.
Qed.

Lemma status_eqb_eq (a b : Status) : status_eqb a b = true <-> a = b.
Proof. destruct a, b; simpl; split; congruence. Qed.

Lemma canRetry_spec (r : t) :
  canRetry r = true <->
  status r = failed /\ retryCount (pushConfig r) < maxRetries (pushConfig r).
Proof.
  unfold canRetry. rewrite andb_true_iff, Z.ltb_lt, status_eqb_eq. tauto.
Qed.

Lemma addRetryAttempt_status now e d r :
  status (addRetryAttempt now e d r) = status r.
Proof. reflexivity. Qed.

Lemma addRetryAttempt_retryCount now e d r :
  retryCount (pushConfig (addRetryAttempt now e d r))
  = retryCount (pushConfig r) + 1.
Proof. reflexivity. Qed.

Lemma addRetryAttempt_maxRetries now e d r :
  maxRetries (pushConfig (addRetryAttempt now e d r))
  = maxRetries (pushConfig r).
Proof. reflexivity. Qed.

Lemma addRetryAttempt_retryHistory now e d r :
  retryHistory (addRetryAttempt now e d r)
  = retryHistory r ++
    [ {| attempt := retryCount (pushConfig r) + 1; timestamp := now;
         error := e;
         retry_duration := match d with Some x => x | None => 0 end |} ].
Proof. reflexivity. Qed.

Lemma failAndRetry_facts (c : Cycle) (r : t) :
  status (failAndRetry c r) = failed /\
  retryCount (pushConfig (failAndRetry c r)) = retryCount (pushConfig r) + 1 /\
  maxRetries (pushConfig (failAndRetry c r)) = maxRetries (pushConfig r).
Proof.
  unfold failAndRetry.
  rewrite addRetryAttempt_status, addRetryAttempt_retryCount,
    addRetryAttempt_maxRetries, markAsFailed_status, markAsFailed_pushConfig.
  auto.
Qed.

Lemma cycles_facts (cs : list Cycle) (r : t) :
  (cs <> [] -> status (cycles cs r) = failed) /\
  retryCount (pushConfig (cycles cs r))
    = retryCount (pushConfig r) + Z.of_nat (List.length cs) /\
  maxRetries (pushConfig (cycles cs r)) = maxRetries (pushConfig r).
Proof.
  unfold cycles. revert r.
  induction cs as [|c cs IH] using rev_ind; intros r.
  - simpl. split; [congruence|]. split; [lia|reflexivity].
  - rewrite fold_left_app. cbn [fold_left].
    destruct (IH r) as [_ [Hc Hm]].
    destruct (failAndRetry_facts c (fold_left (fun acc c0 => failAndRetry c0 acc) cs r))
      as [Hs [Hc' Hm']].
    rewrite Hs, Hc', Hm', Hc, Hm, length_app. simpl.
    split; [reflexivity|]. split; [lia|reflexivity].
Qed.

(** C4 (as the code has it).  [markAsSuccess] has no guard on the current
    status: whatever the record's state, also when it is already
    [success], a call at time [now] leaves the status [success] and sets
    [timing.completedAt] to [now]. *)
Theorem markAsSuccess_overwrites :
  forall (r : t) (now : Z) (m : option string) (rt : option Z)
         (raw : option string),
    status (markAsSuccess now m rt raw r) = success /\
    completedAt (timing (markAsSuccess now m rt raw r)) = Some now.
Proof.
  intros. split; [apply markAsSuccess_status | apply markAsSuccess_completedAt].
Qed.

(** C4, refuted as stated.  A record is started at 500 and marked
    successful at 1000; a second [markAsSuccess] at 2000 is accepted and
    replaces [completedAt]. *)
Lemma markAsSuccess_twice_overwrites :
  let r0 := create "1" Subscription.telegram (Some 0) in
  let r1 := markAsSuccess 1000 (Some "m1"%string) None None (markAsStarted 500 r0) in
  let r2 := markAsSuccess 2000 (Some "m2"%string) None None r1 in
  status r1 = success /\
  completedAt (timing r1) = Some 1000 /\
  completedAt (timing r2) = Some 2000 /\
  completedAt (timing r2) <> completedAt (timing r1).
Proof.
  cbv zeta. rewrite !markAsSuccess_completedAt, markAsSuccess_status.
  repeat split. discriminate.
Qed.

(** C6.  [canRetry] holds exactly when the status is [failed] and
    [retryCount < maxRetries]; so with [maxRetries = 3], three cycles of
    [markAsFailed] and [addRetryAttempt] on an attempt whose counter is not
    negative leave [canRetry] false and [getNextRetryTime] null. *)
Theorem canRetry_correct :
  (forall r : t,
      canRetry r = true <->
      status r = failed /\
      retryCount (pushConfig r) < maxRetries (pushConfig r))
  /\
  (forall (r : t) (c1 c2 c3 : Cycle),
      maxRetries (pushConfig r) = 3 ->
      0 <= retryCount (pushConfig r) ->
      canRetry (cycles [c1; c2; c3] r) = false /\
      forall (now : Z) (random : Q),
        getNextRetryTime now random (cycles [c1; c2; c3] r) = None).
Proof.
  split; [exact canRetry_spec|].
  intros r c1 c2 c3 Hmax Hcount.
  destruct (cycles_facts [c1; c2; c3] r) as [_ [Hc Hm]].
  assert (Hno : canRetry (cycles [c1; c2; c3] r) = false).
  { unfold canRetry. rewrite Hc, Hm, Hmax. simpl List.length.
    replace (retryCount (pushConfig r) + Z.of_nat 3 <? 3) with false;
      [reflexivity|]. symmetry. apply Z.ltb_ge. lia. }
  split; [exact Hno|]. intros now random.
  unfold getNextRetryTime. now rewrite Hno.
Qed.

Lemma canRetry_correct_witness :
  canRetry (cycles [Samples.cycle 10; Samples.cycle 20; Samples.cycle 30]
                   (create "1" Subscription.telegram (Some 0))) = false /\
  forall (now : Z) (random : Q),
    getNextRetryTime now random
      (cycles [Samples.cycle 10; Samples.cycle 20; Samples.cycle 30]
              (create "1" Subscription.telegram (Some 0))) = None.
Proof.
  apply (proj2 canRetry_correct (create "1" Subscription.telegram (Some 0))).
  - reflexivity.
  - simpl. lia.
Defined.


Lemma jitter_range (random : Q) :
  (0 <= random < 1)%Q -> (0 <= random * 1000 < 1000)%Q.
Proof. intros [H0 H1]. split; lra. Qed.





Lemma call_pushConfig (c : Call) (r : t) :
  (forall now e d, c <> CallRetry now e d) ->
  pushConfig (call c r) = pushConfig r.
Proof.
  intros Hc. destruct c; cbn [call].
  - apply markAsStarted_pushConfig.
  - apply markAsSuccess_pushConfig.
  - apply markAsFailed_pushConfig.
  - now elim (Hc now error_ duration_).
  - apply updateInteraction_pushConfig.
Qed.

Lemma call_retryHistory (c : Call) (r : t) :
  (forall now e d, c <> CallRetry now e d) ->
  retryHistory (call c r) = retryHistory r.
Proof.
  intros Hc. destruct c; cbn [call].
  - apply markAsStarted_retryHistory.
  - apply markAsSuccess_retryHistory.
  - apply markAsFailed_retryHistory.
  - now elim (Hc now error_ duration_).
  - apply updateInteraction_retryHistory.
Qed.

Lemma call_counts_history (c : Call) (r : t) :
  counts_history r -> counts_history (call c r).
Proof.
  unfold counts_history. intros H.
  destruct c as [now|now m rt raw|now code msg raw|now e d|now ty fb].
  - rewrite call_pushConfig, call_retryHistory; congruence.
  - rewrite call_pushConfig, call_retryHistory; congruence.
  - rewrite call_pushConfig, call_retryHistory; congruence.
  - cbn [call]. rewrite addRetryAttempt_retryCount, addRetryAttempt_retryHistory.
    rewrite length_app. simpl List.length. lia.
  - rewrite call_pushConfig, call_retryHistory; congruence.
Qed.

Lemma run_counts_history (cs : list Call) (r : t) :
  counts_history r -> counts_history (run cs r).
Proof.
  unfold run. revert r. induction cs as [|c cs IH]; intros r H; simpl.
  - exact H.
  - apply IH. now apply call_counts_history.
Qed.

(** C10.  [retryCount] equals the length of [retryHistory] on a record as
    created and after any sequence of life-cycle calls, and every call
    preserves that equality.  [addRetryAttempt] adds one to [retryCount]
    and appends one entry whose [attempt] is the new [retryCount];
    [markAsStarted], [markAsSuccess], [markAsFailed] and
    [updateInteraction] change neither. *)
Theorem retryCount_matches_retryHistory :
  (forall (id : string) (ch : Subscription.Channel) (scheduled : option Z)
          (cs : list Call),
      counts_history (run cs (create id ch scheduled)))
  /\
  (forall (r : t) (c : Call), counts_history r -> counts_history (call c r))
  /\
  (forall (r : t) (now : Z) (e : option string) (d : option Z),
      retryCount (pushConfig (addRetryAttempt now e d r))
        = retryCount (pushConfig r) + 1 /\
      exists entry,
        retryHistory (addRetryAttempt now e d r) = retryHistory r ++ [entry] /\
        attempt entry = retryCount (pushConfig (addRetryAttempt now e d r)))
  /\
  (forall (r : t) (c : Call),
      (forall now e d, c <> CallRetry now e d) ->
      retryCount (pushConfig (call c r)) = retryCount (pushConfig r) /\
      retryHistory (call c r) = retryHistory r).
Proof.
  split; [|split; [|split]].
  - intros id ch scheduled cs. apply run_counts_history. reflexivity.
  - intros r c. apply call_counts_history.
  - intros r now e d. split; [reflexivity|].
    eexists. split; [apply addRetryAttempt_retryHistory | reflexivity].
  - intros r c Hc. rewrite call_pushConfig, call_retryHistory by exact Hc.
    split; reflexivity.
Qed.

Lemma retryCount_matches_retryHistory_witness :
  counts_history
    (call (CallRetry 30 (Some "timeout"%string) None)
          (Samples.failedAttempt 0 3 5)) /\
  retryCount
    (pushConfig (call (CallStarted 40) (Samples.failedAttempt 0 3 5))) = 0 /\
  retryHistory (call (CallStarted 40) (Samples.failedAttempt 0 3 5)) = [].
Proof.
  destruct retryCount_matches_retryHistory as [_ [Hkeep [_ Hsame]]].
  split.
  - apply Hkeep. reflexivity.
  - apply (Hsame (Samples.failedAttempt 0 3 5) (CallStarted 40)).
    intros now e d. discriminate.
Defined.

End PushRecordFacts.

(** ** Hotness score *)

Section ScoreFacts.

Import Tweet ScoreSpec.
Local Open Scope R_scope.

Lemma Math_round_spec (x : R) (z : Z) :
  IZR z - / 2 <= x < IZR z + / 2 -> JS.Math_round x = z.
Proof.
  intros [Hlo Hhi]. unfold JS.Math_round. symmetry.
  apply Int_part_spec. split; lra.
Qed.

Lemma Math_round_IZR (z : Z) : JS.Math_round (IZR z) = z.
Proof. apply Math_round_spec. split; lra. Qed.

Lemma Math_round_mono (x y : R) :
  x <= y -> (JS.Math_round x <= JS.Math_round y)%Z.
Proof.
  intros Hxy. unfold JS.Math_round.
  destruct (base_Int_part (x + / 2)) as [Hx _].
  destruct (base_Int_part (y + / 2)) as [_ Hy].
  assert (H : IZR (Int_part (x + / 2)) < IZR (Int_part (y + / 2) + 1)).
  { rewrite plus_IZR. simpl. lra. }
  apply lt_IZR in H. lia.
Qed.

Lemma decay_pos (age : R) : 0 < decay age.
Proof. apply exp_pos. Qed.

Lemma decay_zero : decay 0 = 1.
Proof. unfold decay. replace (- 0 / 24) with 0 by lra. apply exp_0. Qed.

Lemma decay_strict (a b : R) : a < b -> decay b < decay a.
Proof. intros H. unfold decay. apply exp_increasing. lra. Qed.

Lemma decay_mono (a b : R) : a <= b -> decay b <= decay a.
Proof.
  intros [H | ->]; [left; now apply decay_strict | right; reflexivity].
Qed.



(** The product the code accumulates in [baseScore] is the specification's
    [base * influence * verifiedMultiplier]. *)
Lemma rawHotness_formula (now : Z) (tw : t) :
  rawHotness now tw
  = base tw * influence tw * verifiedMultiplier tw * decay (ageHours now tw).
Proof.
  unfold rawHotness, base, influence, verifiedMultiplier, decay, ageHours.
  cbv zeta.
  replace (1000 * 60 * 60) with 3600000 by lra.
  destruct (verified (author tw)); ring.
Qed.

Lemma calculateHotnessScore_raw (now : Z) (tw : t) :
  calculateHotnessScore now tw
  = (set_hotness_score (JS.Math_round (rawHotness now tw)) tw,
     JS.Math_round (rawHotness now tw)).
Proof. reflexivity. Qed.

Lemma weight_nonneg (tw : t) :
  counters_nonneg tw -> 0 <= base tw * influence tw * verifiedMultiplier tw.
Proof.
  intros (Hl & Hr & Hp & Hq & Hf).
  apply IZR_le in Hl, Hr, Hp, Hq, Hf.
  assert (Hb : 0 <= base tw) by (unfold base; cbv zeta; lra).
  assert (Hi : 1 <= influence tw).
  { unfold influence.
    assert (0 <= Rmin (IZR (followers_count (author tw)) / 10000) 5).
    { apply Rmin_glb; lra. }
    lra. }
  assert (Hv : 1 <= verifiedMultiplier tw).
  { unfold verifiedMultiplier. destruct (verified (author tw)); lra. }
  apply Rmult_le_pos; [apply Rmult_le_pos|]; lra.
Qed.


Lemma mul_comm64 (x y : Binary64.double) :
  Binary64.mul x y = Binary64.mul y x.
Proof.
  unfold Binary64.mul.
  destruct x as [sx|sx| |sx mx ex], y as [sy|sy| |sy my ey]; cbn;
    try rewrite (xorb_comm sx sy); try reflexivity.
  now rewrite (Pos.mul_comm mx my), (Z.add_comm ex ey).
Qed.

Lemma hour_in_ms :
  Binary64.mul (Binary64.mul (Binary64.num 1000) (Binary64.num 60))
               (Binary64.num 60)
  = Binary64.num 3600000.
Proof. vm_compute. reflexivity. Qed.

(** C1 (as the code has it).  The returned score is [Math.round] of the
    product [((base * influence) verified) * decay] evaluated in binary64,
    every operation rounded to the nearest double, with the
    specification's base, influence and decay at the hours elapsed since
    [created_at], and with the verified factor 1.2 applied for a verified
    author only.  This holds whatever [Math.exp] computes. *)
Theorem calculateHotnessScore_binary64 :
  forall (Math_exp : Binary64.double -> Binary64.double) (tw : t) (now : Z),
    Tweet64.calculateHotnessScore Math_exp now tw
    = Binary64.Math_round
        (Binary64.mul
           (Tweet64.verifiedBoost tw
              (Binary64.mul (Tweet64.base tw) (Tweet64.influence tw)))
           (Tweet64.decay Math_exp (Tweet64.ageHours now tw))).
Proof.
  intros Math_exp tw now.
  unfold Tweet64.calculateHotnessScore,
    Tweet64.verifiedBoost, Tweet64.base, Tweet64.influence, Tweet64.decay,
    Tweet64.ageHours.
  cbv zeta. rewrite hour_in_ms.
  rewrite (mul_comm64 (Binary64.num (like_count (public_metrics tw)))),
    (mul_comm64 (Binary64.num (retweet_count (public_metrics tw)))),
    (mul_comm64 (Binary64.num (reply_count (public_metrics tw)))),
    (mul_comm64 (Binary64.num (quote_count (public_metrics tw)))),
    (mul_comm64 _ (Binary64.dec 1 10)).
  destruct (verified (author tw)); reflexivity.
Qed.

Lemma calculateHotnessScore_tie_any_exp
      (Math_exp : Binary64.double -> Binary64.double) :
  Math_exp (S754_zero true) = Binary64.num 1 ->
  Tweet64.calculateHotnessScore Math_exp 0
    (Samples.tweet 60 0 0 0 2500 false 0 "en")
  = Binary64.Finite 61.
Proof.
  intros Hexp. unfold Tweet64.calculateHotnessScore. cbv zeta.
  match goal with
  | |- context [Math_exp ?a] =>
      let v := eval vm_compute in a in change a with v
  end.
  rewrite Hexp. vm_compute. reflexivity.
Qed.

(** C1, refuted as stated.  For an item with 60 likes whose author has
    2500 followers, scored at its creation time, the exact product
    [60 * 1.025 * 1 * exp 0] is 61.5, which rounds to 62; the code, whose
    doubles give [60 * 1.0249999999999999 = 61.499999999999993], returns
    61. *)
Lemma calculateHotnessScore_tie :
  let tw := Samples.tweet 60 0 0 0 2500 false 0 "en" in
  Tweet64.calculateHotnessScore Binary64.expAtZero 0 tw
  = Binary64.Finite 61 /\
  JS.Math_round (base tw * influence tw * verifiedMultiplier tw
                 * decay (ageHours 0 tw)) = 62%Z.
Proof.
  cbv zeta. split.
  - apply calculateHotnessScore_tie_any_exp. reflexivity.
  - apply Math_round_spec.
    replace (ageHours 0 (Samples.tweet 60 0 0 0 2500 false 0 "en")) with 0
      by (unfold ageHours; simpl; lra).
    rewrite decay_zero.
    unfold base, influence, verifiedMultiplier, Samples.tweet.
    cbn [public_metrics like_count retweet_count reply_count quote_count
         author followers_count verified].
    rewrite Rmin_left by lra. split; lra.
Qed.



Lemma sample_weight (likes created : Z) :
  base (Samples.tweet likes 0 0 0 0 false created "en")
  * influence (Samples.tweet likes 0 0 0 0 false created "en")
  * verifiedMultiplier (Samples.tweet likes 0 0 0 0 false created "en")
  = IZR likes.
Proof.
  unfold base, influence, verifiedMultiplier, Samples.tweet.
  cbn [public_metrics like_count retweet_count reply_count quote_count
       author followers_count verified].
  rewrite Rmin_left by lra. lra.
Qed.


(** The schema puts no lower bound on the counters, and the score follows
    them below zero: the hypothesis on the counters cannot be dropped. *)
Lemma calculateHotnessScore_negative_counter :
  snd (calculateHotnessScore 0 (Samples.tweet (-10) 0 0 0 0 false 0 "en"))
  = (-10)%Z.
Proof.
  rewrite calculateHotnessScore_raw, rawHotness_formula, sample_weight.
  cbn [snd].
  replace (ageHours 0 (Samples.tweet (-10) 0 0 0 0 false 0 "en")) with 0
    by (unfold ageHours; simpl; lra).
  rewrite decay_zero. apply Math_round_spec. split; lra.
Qed.




End ScoreFacts.

(* ================================================================= *)
(** * Further properties of the code *)

(** ** Push records: retry budget and backoff *)

Section RetryFacts.

Import PushRecord.
Local Open Scope Z_scope.

(** X1.  After one or more fail-and-retry cycles the attempt can be
    retried exactly when the counter it started with plus the number of
    cycles is still below [maxRetries]. *)
Theorem canRetry_after_cycles :
  forall (r : t) (cs : list Cycle),
    cs <> [] ->
    (canRetry (cycles cs r) = true <->
     retryCount (pushConfig r) + Z.of_nat (List.length cs)
       < maxRetries (pushConfig r)).
Proof.
  intros r cs Hcs.
  destruct (cycles_facts cs r) as [Hs [Hc Hm]].
  rewrite canRetry_spec, Hc, Hm, (Hs Hcs). tauto.
Qed.

Lemma canRetry_after_cycles_witness :
  canRetry (cycles [Samples.cycle 10; Samples.cycle 20]
                   (create "1" Subscription.telegram None)) = true.
Proof.
  apply (canRetry_after_cycles (create "1" Subscription.telegram None)
           [Samples.cycle 10; Samples.cycle 20]).
  - discriminate.
  - simpl. lia.
Defined.









Lemma new_Date_mono (a : Z) (v : Q) :
  (inject_Z a <= v)%Q -> a <= JS.new_Date v.
Proof.
  intros H. unfold JS.new_Date. destruct (Qle_bool 0 v).
  - rewrite <- (Qfloor_Z a). now apply Qfloor_resp_le.
  - rewrite <- (Qceiling_Z a). now apply Qceiling_resp_le.
Qed.

(** X4.  With a retry delay that is not negative, the next retry time is
    never before [now], whatever the retry counter. *)
Theorem getNextRetryTime_not_before_now :
  forall (r : t) (now : Z) (random : Q) (next : Z),
    (0 <= retryDelay (pushConfig r))%Q ->
    (0 <= random)%Q ->
    getNextRetryTime now random r = Some next ->
    now <= next.
Proof.
  intros r now random next Hd Hr H. unfold getNextRetryTime in H.
  destruct (negb (canRetry r)); [discriminate|].
  injection H as <-. apply new_Date_mono.
  assert (Hp : (0 <= JS.Math_pow2 (retryCount (pushConfig r) - 1))%Q)
    by (apply Qpower_0_le; discriminate).
  assert (Hm : (0 <= retryDelay (pushConfig r) * 1000
                     * JS.Math_pow2 (retryCount (pushConfig r) - 1))%Q).
  { apply Qmult_le_0_compat; [|exact Hp]. lra. }
  lra.
Qed.

Lemma getNextRetryTime_not_before_now_witness :
  getNextRetryTime 1000 (1 # 4) (Samples.failedAttempt 0 3 300)
    = Some 151250 /\
  1000 <= 151250.
Proof.
  split; [reflexivity|].
  apply (getNextRetryTime_not_before_now (Samples.failedAttempt 0 3 300)
           1000 (1 # 4) 151250).
  - discriminate.
  - discriminate.
  - reflexivity.
Defined.

End RetryFacts.

(** ** Push records: what the life-cycle calls leave alone *)

Section LifeCycleFacts.

Import PushRecord PushRecordExt.
Local Open Scope Z_scope.

Lemma call_status (c : Call) (r : t) :
  status (call c r) = status r \/ status (call c r) = sending \/
  status (call c r) = success \/ status (call c r) = failed.
Proof.
  destruct c; cbn [call].
  - right; left. unfold markAsStarted. cbn.
    destruct (scheduledAt (timing r)); reflexivity.
  - right; right; left. apply markAsSuccess_status.
  - right; right; right. apply markAsFailed_status.
  - left. reflexivity.
  - left. unfold updateInteraction.
    repeat match goal with |- context [if ?b then _ else _] => destruct b end;
      reflexivity.
Qed.

Lemma run_snoc (cs : list Call) (c : Call) (r : t) :
  run (cs ++ [c]) r = call c (run cs r).
Proof. unfold run. now rewrite fold_left_app. Qed.

(** X5.  No sequence of life-cycle calls puts a record into [pending] or
    [cancelled]: a record found in one of these states after the calls was
    in it before them. *)
Theorem run_never_pending_or_cancelled :
  forall (cs : list Call) (r : t),
    status (run cs r) = pending \/ status (run cs r) = cancelled ->
    status (run cs r) = status r.
Proof.
  induction cs as [|c cs IH] using rev_ind; intros r H; [reflexivity|].
  rewrite run_snoc in *.
  destruct (call_status c (run cs r)) as [Hk | [Hk | [Hk | Hk]]];
    rewrite Hk in *.
  - now apply IH.
  - destruct H; discriminate.
  - destruct H; discriminate.
  - destruct H; discriminate.
Qed.

Lemma run_never_pending_or_cancelled_witness :
  status (run [CallInteraction 5 "read" None]
              (create "1" Subscription.telegram None))
  = status (create "1" Subscription.telegram None).
Proof.
  apply (run_never_pending_or_cancelled [CallInteraction 5 "read" None]
           (create "1" Subscription.telegram None)).
  left. reflexivity.
Defined.

Lemma call_clickCount (c : Call) (r : t) :
  clickCount (interaction (call c r))
  = clickCount (interaction r) + (if isClick c then 1 else 0).
Proof.
  destruct c; cbn [call isClick].
  - unfold markAsStarted. cbn. destruct (scheduledAt (timing r)); cbn; lia.
  - unfold markAsSuccess. cbn. destruct (startedAt (timing r)); cbn; lia.
  - unfold markAsFailed. cbn. destruct (startedAt (timing r)); cbn; lia.
  - cbn. lia.
  - unfold updateInteraction.
    destruct (String.eqb_spec type "read") as [->|Hr]; [cbn; lia|].
    destruct (String.eqb type "click"); [cbn; lia|].
    destruct (String.eqb type "feedback"); cbn; lia.
Qed.

Lemma call_isRead (c : Call) (r : t) :
  isRead (interaction r) = true -> isRead (interaction (call c r)) = true.
Proof.
  intros H. destruct c; cbn [call].
  - unfold markAsStarted. cbn. destruct (scheduledAt (timing r)); exact H.
  - unfold markAsSuccess. cbn. destruct (startedAt (timing r)); exact H.
  - unfold markAsFailed. cbn. destruct (startedAt (timing r)); exact H.
  - exact H.
  - unfold updateInteraction.
    repeat match goal with |- context [if ?b then _ else _] => destruct b end;
      cbn; trivial.
Qed.

(** X6.  Over any sequence of life-cycle calls [interaction.clickCount]
    grows by the number of [updateInteraction('click')] calls, and a
    record that was read stays read. *)
Theorem run_interaction_counters :
  forall (cs : list Call) (r : t),
    clickCount (interaction (run cs r))
      = clickCount (interaction r) + clicks cs /\
    (isRead (interaction r) = true ->
     isRead (interaction (run cs r)) = true).
Proof.
  induction cs as [|c cs IH] using rev_ind; intros r.
  - unfold clicks. cbn. split; [lia | trivial].
  - rewrite run_snoc. destruct (IH r) as [Hc Hr]. split.
    + rewrite call_clickCount, Hc. unfold clicks.
      rewrite filter_app, length_app. cbn [filter].
      destruct (isClick c); cbn [List.length]; lia.
    + intros H. apply call_isRead. now apply Hr.
Qed.

Lemma run_interaction_counters_witness :
  isRead (interaction
            (run [CallStarted 20; CallInteraction 30 "click" None]
                 (run [CallInteraction 10 "read" None]
                      (create "1" Subscription.telegram None)))) = true.
Proof.
  apply (run_interaction_counters
           [CallStarted 20; CallInteraction 30 "click" None]
           (run [CallInteraction 10 "read" None]
                (create "1" Subscription.telegram None))).
  reflexivity.
Defined.

Lemma markAsStarted_startedAt now r :
  startedAt (timing (markAsStarted now r)) = Some now.
Proof. unfold markAsStarted. cbn. destruct (scheduledAt (timing r)); reflexivity. Qed.

Lemma markAsStarted_result now r :
  result (markAsStarted now r) = result r.
Proof. unfold markAsStarted. cbn. destruct (scheduledAt (timing r)); reflexivity. Qed.

Lemma markAsSuccess_duration now m rt raw r started :
  startedAt (timing r) = Some started ->
  duration (timing (markAsSuccess now m rt raw r)) = Some (now - started).
Proof. intros H. unfold markAsSuccess. cbn. rewrite H. reflexivity. Qed.

Lemma markAsSuccess_result now m rt r :
  messageId (result (markAsSuccess now m rt None r)) = m /\
  errorCode (result (markAsSuccess now m rt None r)) = errorCode (result r) /\
  errorMessage (result (markAsSuccess now m rt None r))
    = errorMessage (result r).
Proof.
  unfold markAsSuccess. cbn. destruct (startedAt (timing r)); cbn; auto.
Qed.

Lemma markAsFailed_result now c m raw r :
  errorCode (result (markAsFailed now c m raw r)) = c /\
  errorMessage (result (markAsFailed now c m raw r)) = m /\
  messageId (result (markAsFailed now c m raw r)) = messageId (result r) /\
  deliveryTime (result (markAsFailed now c m raw r))
    = deliveryTime (result r).
Proof.
  unfold markAsFailed. cbn.
  destruct (startedAt (timing r)); destruct raw; cbn; auto.
Qed.

(** X7.  A delivery that fails, is logged for retry, is started again at
    [t3] and succeeds at [t4] ends as [success] with the duration of the
    second try, one retry counted, no retry possible any more, and with
    the error code and message of the failure still in [result]. *)
Theorem failThenSucceed_keeps_error :
  forall (t0 t1 t2 t3 t4 : Z) (code message messageId_ : option string)
         (r : t),
    let r' := failThenSucceed t0 t1 t2 t3 t4 code message messageId_ r in
    status r' = success /\
    duration (timing r') = Some (t4 - t3) /\
    completedAt (timing r') = Some t4 /\
    retryCount (pushConfig r') = retryCount (pushConfig r) + 1 /\
    canRetry r' = false /\
    messageId (result r') = messageId_ /\
    errorCode (result r') = code /\
    errorMessage (result r') = message.
Proof.
  intros. subst r'. unfold failThenSucceed.
  set (failed_ := markAsFailed t1 code0 message0 None (markAsStarted t0 r)).
  set (again := markAsStarted t3 (addRetryAttempt t2 message0 None failed_)).
  destruct (markAsSuccess_result t4 messageId_ None again) as [Hm [Hc He]].
  destruct (markAsFailed_result t1 code0 message0 None (markAsStarted t0 r))
    as [Hfc [Hfe _]].
  assert (Hres : result again = result failed_)
    by (unfold again; now rewrite markAsStarted_result).
  unfold canRetry.
  rewrite markAsSuccess_status, markAsSuccess_completedAt,
    markAsSuccess_pushConfig.
  rewrite (markAsSuccess_duration t4 messageId_ None None again t3)
    by apply markAsStarted_startedAt.
  rewrite Hm, Hc, He, Hres. fold failed_ in Hfc, Hfe. rewrite Hfc, Hfe.
  unfold again. rewrite markAsStarted_pushConfig, addRetryAttempt_retryCount.
  unfold failed_. rewrite markAsFailed_pushConfig, markAsStarted_pushConfig.
  cbn [status_eqb]. rewrite andb_false_r. repeat split; reflexivity.
Qed.

End LifeCycleFacts.

(** ** Subscriptions: filters, keywords, validation, window, statistics *)

Section SubscriptionMoreFacts.

Import Subscription SubscriptionDoc.
Local Open Scope string_scope.
Local Open Scope Z_scope.

Lemma requirement_eqb_eq (a b : Requirement) :
  requirement_eqb a b = true <-> a = b.
Proof. destruct a, b; simpl; split; congruence. Qed.

(** X8.  [matchesFilters] accepts a tweet exactly when its likes,
    retweets and replies reach the three minimums, media are present if
    required and absent if excluded, and likewise for links. *)
Theorem matchesFilters_iff :
  forall (sub : t) (tweet : Tweet.t),
    matchesFilters sub tweet = true <->
    minLikes (filters sub) <= Tweet.like_count (Tweet.public_metrics tweet) /\
    minRetweets (filters sub)
      <= Tweet.retweet_count (Tweet.public_metrics tweet) /\
    minReplies (filters sub)
      <= Tweet.reply_count (Tweet.public_metrics tweet) /\
    (hasMedia (filters sub) = required -> hasMediaKeys tweet = true) /\
    (hasMedia (filters sub) = excluded -> hasMediaKeys tweet = false) /\
    (hasLinks (filters sub) = required -> hasUrls tweet = true) /\
    (hasLinks (filters sub) = excluded -> hasUrls tweet = false).
Proof.
  intros sub tweet. unfold matchesFilters, hasMediaKeys, hasUrls.
  destruct (Z.ltb_spec (Tweet.like_count (Tweet.public_metrics tweet))
                       (minLikes (filters sub)));
    [split; [discriminate | lia]|].
  destruct (Z.ltb_spec (Tweet.retweet_count (Tweet.public_metrics tweet))
                       (minRetweets (filters sub)));
    [split; [discriminate | lia]|].
  destruct (Z.ltb_spec (Tweet.reply_count (Tweet.public_metrics tweet))
                       (minReplies (filters sub)));
    [split; [discriminate | lia]|].
  cbv zeta.
  destruct (hasMedia (filters sub)), (hasLinks (filters sub));
    destruct (nonEmptyField (Tweet.attachments tweet) Tweet.media_keys);
    destruct (nonEmptyField (Tweet.entities tweet) Tweet.urls);
    cbn; intuition (try discriminate; try lia).
Qed.

(** X9.  A tweet that passes the filters still passes them with more
    likes, retweets and replies, its media and links being the same. *)
Theorem matchesFilters_monotone :
  forall (sub : t) (tweet tweet' : Tweet.t),
    matchesFilters sub tweet = true ->
    Tweet.like_count (Tweet.public_metrics tweet)
      <= Tweet.like_count (Tweet.public_metrics tweet') ->
    Tweet.retweet_count (Tweet.public_metrics tweet)
      <= Tweet.retweet_count (Tweet.public_metrics tweet') ->
    Tweet.reply_count (Tweet.public_metrics tweet)
      <= Tweet.reply_count (Tweet.public_metrics tweet') ->
    Tweet.attachments tweet' = Tweet.attachments tweet ->
    Tweet.entities tweet' = Tweet.entities tweet ->
    matchesFilters sub tweet' = true.
Proof.
  intros sub tweet tweet' H Hl Hr Hp Ha He.
  apply matchesFilters_iff in H. apply matchesFilters_iff.
  unfold hasMediaKeys, hasUrls in *. rewrite Ha, He.
  intuition lia.
Qed.

Lemma matchesFilters_monotone_witness :
  matchesFilters (Samples.subscription ["AI"] [] ["en"] 9 22)
                 (Samples.tweet 100 50 7 0 0 false 0 "en") = true.
Proof.
  apply (matchesFilters_monotone
           (Samples.subscription ["AI"] [] ["en"] 9 22)
           (Samples.tweet 10 5 0 0 0 false 0 "en")
           (Samples.tweet 100 50 7 0 0 false 0 "en"));
    try reflexivity; simpl; lia.
Defined.

Lemma Substring_empty (text : string) : JS.Substring "" text.
Proof. now exists "", text. Qed.

(** X10.  With a lower-casing that keeps the empty string empty: a
    subscription without keywords matches no text; an empty exclude
    keyword rejects every text; an empty required keyword is found in
    every text, so that only the exclude keywords decide. *)
Theorem matchesKeywords_empty_cases :
  forall (toLowerCase : string -> string) (sub : t) (text : string),
    toLowerCase "" = "" ->
    (keywords sub = [] -> matchesKeywords toLowerCase sub text = false) /\
    (In "" (excludeKeywords (filters sub)) ->
     matchesKeywords toLowerCase sub text = false) /\
    (In "" (keywords sub) ->
     (matchesKeywords toLowerCase sub text = true <->
      forall k, In k (excludeKeywords (filters sub)) ->
                ~ JS.Substring (toLowerCase k) (toLowerCase text))).
Proof.
  intros lower sub text Hempty. split; [|split].
  - intros Hk. unfold matchesKeywords. now rewrite Hk.
  - intros Hin.
    destruct (matchesKeywords lower sub text) eqn:E; [|reflexivity].
    apply matchesKeywords_spec in E. destruct E as [_ Hno].
    elim (Hno "" Hin). rewrite Hempty. apply Substring_empty.
  - intros Hin. rewrite matchesKeywords_spec. split.
    + now intros [_ Hno].
    + intros Hno. split; [|exact Hno].
      exists "". split; [exact Hin|]. rewrite Hempty. apply Substring_empty.
Qed.

Lemma matchesKeywords_empty_cases_witness :
  matchesKeywords JS.asciiLower
    (Samples.subscription ["AI"] [""] [] 9 22) "New AI breakthrough" = false.
Proof.
  apply (matchesKeywords_empty_cases JS.asciiLower
           (Samples.subscription ["AI"] [""] [] 9 22) "New AI breakthrough").
  - reflexivity.
  - simpl. now left.
Defined.

Lemma existsb_map_compose {A B : Type} (f : B -> bool) (g : A -> B)
      (xs : list A) :
  existsb f (map g xs) = existsb (fun x => f (g x)) xs.
Proof. induction xs as [|x xs IH]; simpl; [reflexivity | now rewrite IH]. Qed.

Lemma existsb_ext_eq {A : Type} (f g : A -> bool) (xs : list A) :
  (forall x, f x = g x) -> existsb f xs = existsb g xs.
Proof.
  intros H. induction xs as [|x xs IH]; simpl; [reflexivity|].
  now rewrite H, IH.
Qed.

(** X11.  Matching does not see letter case: with an idempotent
    lower-casing, lower-casing the text, the keywords and the exclude
    keywords beforehand does not change the result. *)
Theorem matchesKeywords_case_insensitive :
  forall (toLowerCase : string -> string) (sub : t) (text : string),
    (forall s, toLowerCase (toLowerCase s) = toLowerCase s) ->
    matchesKeywords toLowerCase (mapKeywords toLowerCase sub)
                    (toLowerCase text)
    = matchesKeywords toLowerCase sub text.
Proof.
  intros lower sub text Hidem. unfold matchesKeywords, mapKeywords.
  cbn [keywords filters excludeKeywords].
  rewrite !existsb_map_compose, Hidem.
  rewrite (existsb_ext_eq
             (fun x => JS.includes (lower text) (lower (lower x)))
             (fun x => JS.includes (lower text) (lower x)))
    by (intros x; now rewrite Hidem).
  rewrite (existsb_ext_eq
             (fun x => JS.includes (lower text) (lower (lower x)))
             (fun x => JS.includes (lower text) (lower x))
             (excludeKeywords (filters sub)))
    by (intros x; now rewrite Hidem).
  reflexivity.
Qed.

Lemma asciiLowerChar_idempotent (c : ascii) :
  JS.asciiLowerChar (JS.asciiLowerChar c) = JS.asciiLowerChar c.
Proof. destruct c as [[] [] [] [] [] [] [] []]; reflexivity. Qed.

Lemma asciiLower_idempotent (s : string) :
  JS.asciiLower (JS.asciiLower s) = JS.asciiLower s.
Proof.
  induction s as [|c s IH]; simpl; [reflexivity|].
  now rewrite asciiLowerChar_idempotent, IH.
Qed.

Lemma matchesKeywords_case_insensitive_witness :
  matchesKeywords JS.asciiLower
    (mapKeywords JS.asciiLower (Samples.subscription ["AI"] ["Spam"] [] 9 22))
    (JS.asciiLower "New AI breakthrough")
  = matchesKeywords JS.asciiLower
      (Samples.subscription ["AI"] ["Spam"] [] 9 22) "New AI breakthrough".
Proof.
  apply (matchesKeywords_case_insensitive JS.asciiLower
           (Samples.subscription ["AI"] ["Spam"] [] 9 22)
           "New AI breakthrough").
  exact asciiLower_idempotent.
Defined.

(** X12.  The save hooks let a subscription through exactly when it has
    between 1 and 20 keywords and at least one channel; when keywords and
    channels are both missing, the keyword error is the one reported. *)
Theorem preSave_iff :
  forall sub : t,
    (preSave sub = None <->
     (1 <= List.length (keywords sub) <= 20)%nat /\
     channels (pushSettings sub) <> []) /\
    (keywords sub = [] -> preSave sub = Some NoKeyword).
Proof.
  intros sub. unfold preSave, checkKeywords, checkChannels. split.
  - destruct (Z.eqb_spec (Z.of_nat (List.length (keywords sub))) 0).
    + split; [discriminate | lia].
    + destruct (Z.ltb_spec 20 (Z.of_nat (List.length (keywords sub)))).
      * split; [discriminate | lia].
      * destruct (channels (pushSettings sub)) as [|ch chs]; cbn.
        -- split; [discriminate | intros [_ Hch]; now elim Hch].
        -- split; [intros _; split; [lia | discriminate] | reflexivity].
  - intros H. now rewrite H.
Qed.

End SubscriptionMoreFacts.

Section WindowAndStatsFacts.

Import Subscription SubscriptionDoc.
Local Open Scope string_scope.
Local Open Scope Z_scope.

Lemma preSave_iff_witness :
  preSave (Samples.subscription [] [] [] 9 22) = Some NoKeyword.
Proof.
  apply (proj2 (preSave_iff (Samples.subscription [] [] [] 9 22))).
  reflexivity.
Defined.

(** X13.  An overnight window [start > end + 1] is the complement of the
    same-day window from [end + 1] to [start - 1]; with [start = end + 1]
    every hour is active. *)
Theorem isInActiveHours_overnight_complement :
  forall (sub : t) (h : Z),
    (start (activeHours (pushSettings sub))
       > end_ (activeHours (pushSettings sub)) + 1 ->
     isInActiveHours h sub
     = negb (isInActiveHours h
               (withActiveHours
                  (end_ (activeHours (pushSettings sub)) + 1)
                  (start (activeHours (pushSettings sub)) - 1) sub))) /\
    (start (activeHours (pushSettings sub))
       = end_ (activeHours (pushSettings sub)) + 1 ->
     isInActiveHours h sub = true).
Proof.
  intros sub h. unfold isInActiveHours, withActiveHours.
  cbn [pushSettings activeHours start end_].
  set (s := start (activeHours (pushSettings sub))).
  set (e := end_ (activeHours (pushSettings sub))).
  split; intros H.
  - destruct (Z.leb_spec s e); [lia|].
    destruct (Z.leb_spec (e + 1) (s - 1)); [|lia].
    destruct (Z.geb_spec h s), (Z.leb_spec h e),
      (Z.geb_spec h (e + 1)), (Z.leb_spec h (s - 1)); cbn; trivial; lia.
  - destruct (Z.leb_spec s e); [lia|].
    destruct (Z.geb_spec h s), (Z.leb_spec h e); cbn; trivial; lia.
Qed.

Lemma isInActiveHours_overnight_complement_witness :
  isInActiveHours 3 (Samples.subscription [] [] [] 22 6)
  = negb (isInActiveHours 3
            (withActiveHours 7 21 (Samples.subscription [] [] [] 22 6))) /\
  isInActiveHours 15 (Samples.subscription [] [] [] 7 6) = true.
Proof.
  split.
  - apply (proj1 (isInActiveHours_overnight_complement
                    (Samples.subscription [] [] [] 22 6) 3)).
    simpl. lia.
  - apply (proj2 (isInActiveHours_overnight_complement
                    (Samples.subscription [] [] [] 7 6) 15)).
    reflexivity.
Defined.

Lemma activeHourCount_table :
  forallb
    (fun s =>
       forallb
         (fun e =>
            activeHourCount (Samples.subscription [] [] [] s e)
            =? (if s <=? e then e - s + 1 else 24 - s + e + 1))
         hoursOfDay)
    hoursOfDay = true.
Proof. vm_compute. reflexivity. Qed.

Lemma In_hoursOfDay (h : Z) : 0 <= h <= 23 -> In h hoursOfDay.
Proof.
  intros H. unfold hoursOfDay. apply in_map_iff.
  exists (Z.to_nat h). split; [lia|]. apply in_seq. lia.
Qed.

Lemma activeHourCount_window (sub sub' : t) :
  activeHours (pushSettings sub) = activeHours (pushSettings sub') ->
  activeHourCount sub = activeHourCount sub'.
Proof.
  intros H. unfold activeHourCount, isInActiveHours. now rewrite H.
Qed.

(** X14.  For a window with [start] and [end] between 0 and 23, the
    number of hours of the day at which the subscription is active is
    [end - start + 1] for a same-day window and [24 - start + end + 1] for
    an overnight one. *)
Theorem isInActiveHours_count :
  forall sub : t,
    0 <= start (activeHours (pushSettings sub)) <= 23 ->
    0 <= end_ (activeHours (pushSettings sub)) <= 23 ->
    activeHourCount sub
    = if start (activeHours (pushSettings sub))
           <=? end_ (activeHours (pushSettings sub))
      then end_ (activeHours (pushSettings sub))
           - start (activeHours (pushSettings sub)) + 1
      else 24 - start (activeHours (pushSettings sub))
           + end_ (activeHours (pushSettings sub)) + 1.
Proof.
  intros sub Hs He.
  set (s := start (activeHours (pushSettings sub))) in *.
  set (e := end_ (activeHours (pushSettings sub))) in *.
  rewrite (activeHourCount_window sub (Samples.subscription [] [] [] s e)).
  - pose proof activeHourCount_table as T.
    rewrite forallb_forall in T. specialize (T s (In_hoursOfDay s Hs)).
    rewrite forallb_forall in T. specialize (T e (In_hoursOfDay e He)).
    now apply Z.eqb_eq in T.
  - unfold s, e. cbn. now destruct (activeHours (pushSettings sub)).
Qed.

Lemma isInActiveHours_count_witness :
  activeHourCount (Samples.subscription [] [] [] 9 22) = 14 /\
  activeHourCount (Samples.subscription [] [] [] 22 6) = 9.
Proof.
  split.
  - apply (isInActiveHours_count (Samples.subscription [] [] [] 9 22));
      simpl; lia.
  - apply (isInActiveHours_count (Samples.subscription [] [] [] 22 6));
      simpl; lia.
Defined.

Lemma updateStats_counts (now : Z) (type : string) (st : Stats) :
  totalMatches (updateStats now type st)
    = totalMatches st + (if String.eqb type "match" then 1 else 0) /\
  totalPushes (updateStats now type st)
    = totalPushes st + (if String.eqb type "push" then 1 else 0).
Proof.
  unfold updateStats.
  destruct (String.eqb_spec type "match") as [->|Hm]; [cbn; lia|].
  destruct (String.eqb type "push"); cbn; lia.
Qed.

Lemma updateStats_other (now : Z) (type : string) (st : Stats) :
  type <> "match" -> type <> "push" -> updateStats now type st = st.
Proof.
  intros Hm Hp. unfold updateStats.
  destruct (String.eqb_spec type "match"); [contradiction|].
  destruct (String.eqb_spec type "push"); [contradiction|]. reflexivity.
Qed.

(** X15.  Over any series of [updateStats] calls, [totalMatches] grows by
    the number of ['match'] calls and [totalPushes] by the number of
    ['push'] calls; a series without either type leaves the statistics as
    they were. *)
Theorem updateStats_counts_calls :
  forall (calls : list (Z * string)) (st : Stats),
    totalMatches (updateStatsAll calls st)
      = totalMatches st + countOf "match" calls /\
    totalPushes (updateStatsAll calls st)
      = totalPushes st + countOf "push" calls /\
    ((forall c, In c calls -> snd c <> "match" /\ snd c <> "push") ->
     updateStatsAll calls st = st).
Proof.
  unfold updateStatsAll, countOf.
  induction calls as [|c calls IH] using rev_ind; intros st.
  - cbn. repeat split; lia.
  - rewrite fold_left_app. cbn [fold_left].
    destruct (IH st) as [Hm [Hp Hsame]].
    destruct (updateStats_counts (fst c) (snd c)
                (fold_left (fun acc c0 => updateStats (fst c0) (snd c0) acc)
                           calls st)) as [Hm' Hp'].
    rewrite Hm', Hp', Hm, Hp, !filter_app, !length_app. cbn [filter].
    split; [|split].
    + destruct (String.eqb (snd c) "match"); cbn [List.length]; lia.
    + destruct (String.eqb (snd c) "push"); cbn [List.length]; lia.
    + intros Hno. rewrite Hsame.
      * apply updateStats_other; apply (Hno c); apply in_or_app; right;
          now left.
      * intros c0 Hin. apply Hno. apply in_or_app. now left.
Qed.

Lemma updateStats_counts_calls_witness :
  updateStatsAll [(10, "view"); (20, "click")]
    {| totalMatches := 3; totalPushes := 1; lastMatchAt := Some 5;
       lastPushAt := None |}
  = {| totalMatches := 3; totalPushes := 1; lastMatchAt := Some 5;
       lastPushAt := None |}.
Proof.
  apply (updateStats_counts_calls [(10, "view"); (20, "click")]).
  intros c [<- | [<- | []]]; split; discriminate.
Defined.

End WindowAndStatsFacts.

(** ** Tweets: summary, quality gate, push status *)

Section TweetDocFacts.

Import TweetDoc.
Local Open Scope Z_scope.

Lemma substring0_length (n : nat) (s : JSExt.utf16) :
  List.length (JSExt.substring0 n s) = Nat.min n (List.length s).
Proof. unfold JSExt.substring0. apply length_firstn. Qed.

Lemma substring0_prefix (n : nat) (s : JSExt.utf16) :
  exists rest, s = JSExt.substring0 n s ++ rest.
Proof.
  exists (skipn n s). unfold JSExt.substring0.
  symmetry. apply firstn_skipn.
Qed.

(** X16.  The text of a summary never has more than 100 code units: a
    text of at most 100 code units is kept whole, a longer one becomes
    its first 97 code units followed by "...". *)
Theorem getSummary_text_bounded :
  forall d : t,
    JSExt.length (summary_text (getSummary d)) <= 100 /\
    (JSExt.length (text d) <= 100 ->
     summary_text (getSummary d) = text d) /\
    (100 < JSExt.length (text d) ->
     JSExt.length (summary_text (getSummary d)) = 100 /\
     exists head rest,
       JSExt.length head = 97 /\
       text d = head ++ rest /\
       summary_text (getSummary d) = head ++ JSExt.dots).
Proof.
  intros d. unfold getSummary. cbn [summary_text].
  destruct (Z.ltb_spec 100 (JSExt.length (text d))) as [Hlong | Hshort].
  - assert (Hlen : List.length (JSExt.substring0 97 (text d)) = 97%nat).
    { rewrite substring0_length. unfold JSExt.length in Hlong. lia. }
    split; [|split].
    + unfold JSExt.length. rewrite length_app, Hlen. simpl. lia.
    + lia.
    + intros _. split.
      * unfold JSExt.length. rewrite length_app, Hlen. reflexivity.
      * destruct (substring0_prefix 97 (text d)) as [rest Hr].
        exists (JSExt.substring0 97 (text d)), rest.
        unfold JSExt.length. rewrite Hlen. repeat split; trivial.
  - split; [lia|]. split; [reflexivity | lia].
Qed.

Lemma getSummary_text_bounded_witness :
  summary_text
    (getSummary (MoreSamples.doc 9 0 0 0 MoreSamples.sevenHan 0))
  = MoreSamples.sevenHan.
Proof.
  apply (getSummary_text_bounded
           (MoreSamples.doc 9 0 0 0 MoreSamples.sevenHan 0)).
  simpl. unfold JSExt.length. simpl. lia.
Defined.

Lemma lt_spec (x y : Q) : JSExt.lt x y = true <-> (x < y)%Q.
Proof.
  unfold JSExt.lt. rewrite negb_true_iff. split.
  - intros H. apply Qnot_le_lt. intros Hle.
    apply Qle_bool_iff in Hle. congruence.
  - intros H. destruct (Qle_bool y x) eqn:E; [|reflexivity].
    apply Qle_bool_iff in E. elim (Qlt_not_le _ _ H E).
Qed.

(** X17.  A tweet is of high quality exactly when its likes, retweets and
    replies add up to at least 5, its text has at least 20 code units and
    its spam score is at most 0.7; quotes, followers and age play no
    part. *)
Theorem isHighQuality_iff :
  forall d : t,
    isHighQuality d = true <->
    5 <= Tweet.like_count (public_metrics d)
         + Tweet.retweet_count (public_metrics d)
         + Tweet.reply_count (public_metrics d) /\
    20 <= JSExt.length (text d) /\
    (spam_score d <= 7 # 10)%Q.
Proof.
  intros d. unfold isHighQuality. cbv zeta.
  destruct (Z.ltb_spec
              (Tweet.like_count (public_metrics d)
               + Tweet.retweet_count (public_metrics d)
               + Tweet.reply_count (public_metrics d)) 5);
    [split; [discriminate | lia]|].
  destruct (Z.ltb_spec (JSExt.length (text d)) 20);
    [split; [discriminate | lia]|].
  destruct (JSExt.lt (7 # 10) (spam_score d)) eqn:E.
  - apply lt_spec in E. split; [discriminate|].
    intros [_ [_ Hle]]. elim (Qlt_not_le _ _ E Hle).
  - split; [|reflexivity]. intros _. split; [lia|]. split; [lia|].
    apply Qnot_lt_le. intros Hlt. apply lt_spec in Hlt. congruence.
Qed.

(** A text of seven Chinese characters has length 7 and fails the
    20-unit test, whatever its engagement. *)
Lemma isHighQuality_sevenHan :
  isHighQuality (MoreSamples.doc 100 50 7 0 MoreSamples.sevenHan 0) = false.
Proof. reflexivity. Qed.

Lemma channel_eqb_eq (a b : Subscription.Channel) :
  channel_eqb a b = true <-> a = b.
Proof. destruct a, b; simpl; split; congruence. Qed.

Lemma channel_eqb_neq (a b : Subscription.Channel) :
  channel_eqb a b = false <-> a <> b.
Proof. destruct a, b; simpl; split; congruence. Qed.

Lemma assignFirst_channels (c : Subscription.Channel)
      (f : ChannelPush -> ChannelPush) (chs : list ChannelPush) :
  (forall ch, channel (f ch) = channel ch) ->
  map channel (assignFirst c f chs) = map channel chs.
Proof.
  intros Hf. induction chs as [|ch chs IH]; simpl; [reflexivity|].
  destruct (channel_eqb (channel ch) c); simpl.
  - now rewrite Hf.
  - now rewrite IH.
Qed.

Lemma find_assignFirst_same (c : Subscription.Channel)
      (f : ChannelPush -> ChannelPush) (chs : list ChannelPush)
      (entry : ChannelPush) :
  (forall ch, channel (f ch) = channel ch) ->
  find (fun ch => channel_eqb (channel ch) c) chs = Some entry ->
  find (fun ch => channel_eqb (channel ch) c) (assignFirst c f chs)
  = Some (f entry).
Proof.
  intros Hf. induction chs as [|ch chs IH]; simpl; [discriminate|].
  destruct (channel_eqb (channel ch) c) eqn:E; simpl.
  - intros H. injection H as <-. now rewrite Hf, E.
  - intros H. rewrite E. now apply IH.
Qed.

Lemma find_assignFirst_other (c c' : Subscription.Channel)
      (f : ChannelPush -> ChannelPush) (chs : list ChannelPush) :
  (forall ch, channel (f ch) = channel ch) ->
  c' <> c ->
  find (fun ch => channel_eqb (channel ch) c') (assignFirst c f chs)
  = find (fun ch => channel_eqb (channel ch) c') chs.
Proof.
  intros Hf Hne. induction chs as [|ch chs IH]; simpl; [reflexivity|].
  destruct (channel_eqb (channel ch) c) eqn:E; simpl.
  - rewrite Hf. apply channel_eqb_eq in E. rewrite E.
    assert (channel_eqb c c' = false) as -> by (apply channel_eqb_neq; congruence).
    reflexivity.
  - destruct (channel_eqb (channel ch) c'); [reflexivity | exact IH].
Qed.

Lemma find_app_none {A : Type} (p : A -> bool) (xs ys : list A) :
  find p xs = None -> find p (xs ++ ys) = find p ys.
Proof.
  induction xs as [|x xs IH]; simpl; [reflexivity|].
  destruct (p x); [discriminate | exact IH].
Qed.

Lemma find_app_skip {A : Type} (p : A -> bool) (xs : list A) (y : A) :
  p y = false -> find p (xs ++ [y]) = find p xs.
Proof.
  intros Hy. induction xs as [|x xs IH]; simpl.
  - now rewrite Hy.
  - destruct (p x); [reflexivity | exact IH].
Qed.

(** X18.  After [updatePushStatus] the entry found for the channel carries
    the new status and the time of the call, and the entry found for any
    other channel is the one found before. *)
Theorem updatePushStatus_lookup :
  forall (now pushedNow : Z) (c : Subscription.Channel) (st : ChannelStatus)
         (m e : option string) (ps : PushStatus),
    (exists entry,
        lookup c (updatePushStatus now pushedNow c st m e ps) = Some entry /\
        channel entry = c /\ status entry = st /\
        channel_pushedAt entry = Some now) /\
    (forall c', c' <> c ->
                lookup c' (updatePushStatus now pushedNow c st m e ps)
                = lookup c' ps).
Proof.
  intros now pushedNow c st m e ps. unfold lookup, updatePushStatus.
  cbn [pushChannels].
  set (f := fun ch : ChannelPush =>
              {| channel := channel ch; status := st;
                 channel_pushedAt := Some now;
                 error := if JSExt.truthy e then e else error ch;
                 messageId := if JSExt.truthy m then m else messageId ch |}).
  assert (Hf : forall ch, channel (f ch) = channel ch) by reflexivity.
  destruct (find (fun ch => channel_eqb (channel ch) c) (pushChannels ps))
    as [old|] eqn:Hfind.
  - split.
    + exists (f old). split; [now apply find_assignFirst_same|].
      apply find_some in Hfind. destruct Hfind as [_ Hc].
      apply channel_eqb_eq in Hc. repeat split; trivial.
    + intros c' Hne. now apply find_assignFirst_other.
  - split.
    + eexists. split.
      * rewrite find_app_none by exact Hfind. cbn.
        assert (channel_eqb c c = true) as -> by now apply channel_eqb_eq.
        reflexivity.
      * repeat split; reflexivity.
    + intros c' Hne. apply find_app_skip. cbn.
      apply channel_eqb_neq. congruence.
Qed.

Lemma updatePushStatus_lookup_witness :
  lookup Subscription.telegram
    (updatePushStatus 20 20 Subscription.discord failed None None
       (applyAll [MoreSamples.push 10 Subscription.telegram success] fresh))
  = lookup Subscription.telegram
      (applyAll [MoreSamples.push 10 Subscription.telegram success] fresh).
Proof.
  apply (proj2 (updatePushStatus_lookup 20 20 Subscription.discord failed
                  None None
                  (applyAll [MoreSamples.push 10 Subscription.telegram success]
                            fresh))).
  discriminate.
Defined.

End TweetDocFacts.

Section PushStatusFacts.

Import TweetDoc.
Local Open Scope Z_scope.

Lemma updatePushStatus_channels (now pushedNow : Z)
      (c : Subscription.Channel) (st : ChannelStatus) (m e : option string)
      (ps : PushStatus) :
  map channel (pushChannels (updatePushStatus now pushedNow c st m e ps))
  = if existsb (fun c' => channel_eqb c' c) (map channel (pushChannels ps))
    then map channel (pushChannels ps)
    else map channel (pushChannels ps) ++ [c].
Proof.
  unfold updatePushStatus. cbn [pushChannels].
  destruct (find (fun ch => channel_eqb (channel ch) c) (pushChannels ps))
    as [old|] eqn:Hfind.
  - rewrite assignFirst_channels by reflexivity.
    replace (existsb (fun c' => channel_eqb c' c)
                     (map channel (pushChannels ps))) with true; [reflexivity|].
    symmetry. apply existsb_exists. apply find_some in Hfind.
    destruct Hfind as [Hin Hc]. exists (channel old). split; [|exact Hc].
    now apply in_map.
  - rewrite map_app. cbn [map channel].
    replace (existsb (fun c' => channel_eqb c' c)
                     (map channel (pushChannels ps))) with false; [reflexivity|].
    symmetry. apply not_true_is_false. intros H.
    apply existsb_exists in H. destruct H as [c' [Hin Hc]].
    apply in_map_iff in Hin. destruct Hin as [ch [<- Hin]].
    now rewrite (find_none _ _ Hfind ch Hin) in Hc.
Qed.

Lemma updatePushStatus_NoDup (now pushedNow : Z)
      (c : Subscription.Channel) (st : ChannelStatus) (m e : option string)
      (ps : PushStatus) :
  NoDup (map channel (pushChannels ps)) ->
  NoDup (map channel
           (pushChannels (updatePushStatus now pushedNow c st m e ps))).
Proof.
  intros H. rewrite updatePushStatus_channels.
  destruct (existsb (fun c' => channel_eqb c' c)
                    (map channel (pushChannels ps))) eqn:E; [exact H|].
  apply NoDup_app; [exact H | repeat constructor; intros [] |].
  intros x Hx [Hxc | []]. subst x.
  assert (existsb (fun c' => channel_eqb c' c)
                  (map channel (pushChannels ps)) = true).
  { apply existsb_exists. exists c. split; [exact Hx|].
    now apply channel_eqb_eq. }
  congruence.
Qed.

(** X19.  Starting from the empty push status of a new tweet, any series
    of [updatePushStatus] calls leaves at most one entry per channel in
    [pushChannels], hence at most three entries. *)
Theorem applyAll_one_entry_per_channel :
  forall us : list Update,
    NoDup (map channel (pushChannels (applyAll us fresh))) /\
    (List.length (pushChannels (applyAll us fresh)) <= 3)%nat.
Proof.
  intros us.
  assert (H : NoDup (map channel (pushChannels (applyAll us fresh)))).
  { unfold applyAll. induction us as [|u us IH] using rev_ind.
    - constructor.
    - rewrite fold_left_app. cbn [fold_left]. unfold apply at 1.
      now apply updatePushStatus_NoDup. }
  split; [exact H|].
  rewrite <- (length_map channel).
  change 3%nat with
    (List.length [Subscription.wechat; Subscription.telegram;
                  Subscription.discord]).
  apply NoDup_incl_length; [exact H|].
  intros c _. destruct c; simpl; auto.
Qed.

Lemma apply_isPushed (u : Update) (ps : PushStatus) :
  isPushed ps = true -> isPushed (apply u ps) = true.
Proof.
  intros H. unfold apply, updatePushStatus. cbn [isPushed].
  now destruct (forallb _ _).
Qed.

Lemma apply_totalPushes (u : Update) (ps : PushStatus) :
  totalPushes ps <= totalPushes (apply u ps) <= totalPushes ps + 1.
Proof.
  unfold apply, updatePushStatus. cbn [totalPushes].
  destruct (existsb _ _); lia.
Qed.

(** X20.  Over any series of [updatePushStatus] calls, a tweet once marked
    as pushed stays marked, whatever is reported afterwards, and
    [totalPushes] never decreases and grows by at most one per call. *)
Theorem applyAll_isPushed_sticky :
  forall (us : list Update) (ps : PushStatus),
    (isPushed ps = true -> isPushed (applyAll us ps) = true) /\
    totalPushes ps <= totalPushes (applyAll us ps)
      <= totalPushes ps + Z.of_nat (List.length us).
Proof.
  unfold applyAll. induction us as [|u us IH] using rev_ind; intros ps.
  - cbn. split; [trivial | lia].
  - rewrite fold_left_app, length_app. cbn [fold_left List.length].
    destruct (IH ps) as [Hp Ht].
    pose proof (apply_totalPushes u
                  (fold_left (fun acc u0 => apply u0 acc) us ps)) as Hu.
    split.
    + intros H. apply apply_isPushed. now apply Hp.
    + lia.
Qed.

Lemma applyAll_isPushed_sticky_witness :
  isPushed
    (applyAll [MoreSamples.push 20 Subscription.telegram failed]
       (applyAll [MoreSamples.push 10 Subscription.telegram success] fresh))
  = true.
Proof.
  apply (applyAll_isPushed_sticky
           [MoreSamples.push 20 Subscription.telegram failed]
           (applyAll [MoreSamples.push 10 Subscription.telegram success]
                     fresh)).
  reflexivity.
Defined.

Lemma existsb_assignFirst_other (c : Subscription.Channel)
      (f : ChannelPush -> ChannelPush) (chs : list ChannelPush)
      (entry : ChannelPush) :
  In entry chs -> channel entry <> c -> status entry = success ->
  existsb (fun ch => status_eqb (status ch) success) (assignFirst c f chs)
  = true.
Proof.
  intros Hin Hne Hs. induction chs as [|ch chs IH]; [contradiction|].
  simpl. destruct (channel_eqb (channel ch) c) eqn:E.
  - destruct Hin as [-> | Hin].
    + apply channel_eqb_eq in E. contradiction.
    + simpl. apply orb_true_iff. right. apply existsb_exists.
      exists entry. split; [exact Hin | now rewrite Hs].
  - simpl. destruct Hin as [-> | Hin].
    + now rewrite Hs.
    + rewrite (IH Hin). apply orb_true_r.
Qed.

(** X21.  [totalPushes] counts reports, not deliveries: while some other
    channel stands at [success], a report for a channel adds one to
    [totalPushes] whatever status it reports, a failure included. *)
Theorem updatePushStatus_counts_reports :
  forall (now pushedNow : Z) (c c' : Subscription.Channel)
         (st : ChannelStatus) (m e : option string) (ps : PushStatus)
         (entry : ChannelPush),
    lookup c' ps = Some entry ->
    status entry = success ->
    c' <> c ->
    totalPushes (updatePushStatus now pushedNow c st m e ps)
    = totalPushes ps + 1.
Proof.
  intros now pushedNow c c' st m e ps entry Hl Hs Hne.
  unfold lookup in Hl. apply find_some in Hl. destruct Hl as [Hin Hc].
  apply channel_eqb_eq in Hc.
  unfold updatePushStatus. cbn [totalPushes].
  destruct (find (fun ch => channel_eqb (channel ch) c) (pushChannels ps)).
  - rewrite (existsb_assignFirst_other c _ (pushChannels ps) entry);
      trivial. congruence.
  - rewrite existsb_app.
    replace (existsb (fun ch => status_eqb (status ch) success)
                     (pushChannels ps)) with true; [reflexivity|].
    symmetry. apply existsb_exists. exists entry.
    split; [exact Hin | now rewrite Hs].
Qed.

Lemma updatePushStatus_counts_reports_witness :
  totalPushes
    (updatePushStatus 20 20 Subscription.discord failed None
       (Some "timeout"%string)
       (applyAll [MoreSamples.push 10 Subscription.telegram success] fresh))
  = totalPushes
      (applyAll [MoreSamples.push 10 Subscription.telegram success] fresh)
    + 1.
Proof.
  apply (updatePushStatus_counts_reports 20 20 Subscription.discord
           Subscription.telegram failed None (Some "timeout"%string)
           (applyAll [MoreSamples.push 10 Subscription.telegram success] fresh)
           {| channel := Subscription.telegram; status := success;
              channel_pushedAt := Some 10; error := None;
              messageId := None |}).
  - reflexivity.
  - reflexivity.
  - discriminate.
Defined.

End PushStatusFacts.

(** ** Hotness score: bounds *)

Section ScoreBounds.

Import Tweet ScoreSpec.
Local Open Scope R_scope.

Lemma influence_range (tw : t) :
  (0 <= followers_count (author tw))%Z -> 1 <= influence tw <= 1.5.
Proof.
  intros Hf. apply IZR_le in Hf. unfold influence.
  assert (0 <= Rmin (IZR (followers_count (author tw)) / 10000) 5)
    by (apply Rmin_glb; lra).
  pose proof (Rmin_r (IZR (followers_count (author tw)) / 10000) 5).
  split; lra.
Qed.

Lemma verifiedMultiplier_range (tw : t) : 1 <= verifiedMultiplier tw <= 1.2.
Proof. unfold verifiedMultiplier. destruct (verified (author tw)); lra. Qed.

Lemma base_nonneg (tw : t) : counters_nonneg tw -> 0 <= base tw.
Proof.
  intros (Hl & Hr & Hp & Hq & _). apply IZR_le in Hl, Hr, Hp, Hq.
  unfold base. cbv zeta. lra.
Qed.

(** X22.  For an item with counters that are not negative, scored at or
    after its creation time, the score lies between 0 and the rounded
    1.8-fold of the weighted engagement: the follower and verified
    factors together multiply by at most 1.8 and the decay by at most
    1. *)
Theorem calculateHotnessScore_upper_bound :
  forall (tw : t) (now : Z),
    counters_nonneg tw ->
    (created_at (metadata tw) <= now)%Z ->
    (0 <= snd (calculateHotnessScore now tw)
       <= JS.Math_round (1.8 * base tw))%Z.
Proof.
  intros tw now Hc Hnow.
  pose proof (base_nonneg tw Hc) as Hb.
  destruct Hc as (Hl & Hr & Hp & Hq & Hf).
  pose proof (influence_range tw Hf) as [Hi1 Hi2].
  pose proof (verifiedMultiplier_range tw) as [Hv1 Hv2].
  assert (Hage : 0 <= ageHours now tw).
  { unfold ageHours.
    assert (0 <= IZR (now - created_at (metadata tw))) by (apply IZR_le; lia).
    lra. }
  pose proof (decay_mono 0 (ageHours now tw) Hage) as Hd.
  rewrite decay_zero in Hd.
  pose proof (decay_pos (ageHours now tw)) as Hd0.
  rewrite calculateHotnessScore_raw, rawHotness_formula. cbn [snd].
  set (D := decay (ageHours now tw)) in *.
  assert (Hbi : 0 <= base tw * influence tw) by (apply Rmult_le_pos; lra).
  assert (Hbi' : base tw * influence tw <= base tw * 1.5)
    by (apply Rmult_le_compat_l; lra).
  assert (Hw0 : 0 <= base tw * influence tw * verifiedMultiplier tw)
    by (apply Rmult_le_pos; lra).
  assert (Hw1 : base tw * influence tw * verifiedMultiplier tw
                <= base tw * influence tw * 1.2)
    by (apply Rmult_le_compat_l; lra).
  set (W := base tw * influence tw * verifiedMultiplier tw) in *.
  assert (HWD0 : 0 <= W * D) by (apply Rmult_le_pos; lra).
  assert (HWD1 : W * D <= W * 1) by (apply Rmult_le_compat_l; lra).
  split.
  - rewrite <- (Math_round_IZR 0). apply Math_round_mono. exact HWD0.
  - apply Math_round_mono. lra.
Qed.

Lemma calculateHotnessScore_upper_bound_witness :
  (0 <= snd (calculateHotnessScore 3600000
               (Samples.tweet 100 50 0 0 50000 true 0 "en"))
     <= JS.Math_round
          (1.8 * base (Samples.tweet 100 50 0 0 50000 true 0 "en")))%Z.
Proof.
  apply (calculateHotnessScore_upper_bound
           (Samples.tweet 100 50 0 0 50000 true 0 "en") 3600000).
  - unfold counters_nonneg. simpl. lia.
  - simpl. lia.
Defined.

(** X23.  Every score runs out: once the age in hours reaches 48 times
    the weighted engagement [base * influence * verifiedMultiplier], the
    score of an item with counters that are not negative is 0. *)
Theorem calculateHotnessScore_eventually_zero :
  forall (tw : t) (now : Z),
    counters_nonneg tw ->
    48 * (base tw * influence tw * verifiedMultiplier tw)
      <= ageHours now tw ->
    snd (calculateHotnessScore now tw) = 0%Z.
Proof.
  intros tw now Hc Hold.
  pose proof (weight_nonneg tw Hc) as Hw.
  rewrite calculateHotnessScore_raw, rawHotness_formula. cbn [snd].
  set (K := base tw * influence tw * verifiedMultiplier tw) in *.
  set (x := ageHours now tw / 24).
  assert (Hx : 2 * K <= x) by (unfold x; lra).
  assert (HE : decay (ageHours now tw) = / exp x).
  { unfold decay, x. rewrite <- exp_Ropp. f_equal. lra. }
  pose proof (exp_ineq1_le x) as HF.
  pose proof (exp_pos x) as HF0.
  assert (Hle : / exp x <= / (1 + 2 * K)).
  { apply Rinv_le_contravar; lra. }
  assert (Hinv : 0 < / exp x) by now apply Rinv_0_lt_compat.
  assert (Hfrac : K * / (1 + 2 * K) < / 2).
  { apply Rmult_lt_reg_r with (1 + 2 * K); [lra|].
    rewrite Rmult_assoc, Rinv_l by lra. lra. }
  apply Math_round_spec. rewrite HE. simpl. split.
  - assert (0 <= K * / exp x) by (apply Rmult_le_pos; lra). lra.
  - apply Rle_lt_trans with (K * / (1 + 2 * K)); [|lra].
    apply Rmult_le_compat_l; assumption.
Qed.

Lemma calculateHotnessScore_eventually_zero_witness :
  snd (calculateHotnessScore 17280000000
         (Samples.tweet 100 0 0 0 0 false 0 "en")) = 0%Z.
Proof.
  apply (calculateHotnessScore_eventually_zero
           (Samples.tweet 100 0 0 0 0 false 0 "en") 17280000000).
  - unfold counters_nonneg. simpl. lia.
  - rewrite sample_weight. unfold ageHours. simpl. lra.
Defined.

End ScoreBounds.

(** ** Users: failed logins and the lock *)

Section UserFacts.

Import User.
Local Open Scope Z_scope.

(** X24.  A failed login on an account that holds no lock and already
    counts 4 or more failed attempts locks it: the account is locked at
    every time before the lock's end, two hours after the clock reading of
    the call, and not from then on. *)
Theorem failedLogin_locks :
  forall (now1 now2 now3 : Z) (s : Security),
    lockUntil s = None ->
    4 <= loginAttempts s ->
    let s' := failedLogin now1 now2 now3 s in
    loginAttempts s' = loginAttempts s + 1 /\
    lockUntil s' = Some (now3 + 7200000) /\
    (forall now, now < now3 + 7200000 -> isLocked now s' = true) /\
    (forall now, now3 + 7200000 <= now -> isLocked now s' = false).
Proof.
  intros now1 now2 now3 s Hl Ha. cbv zeta.
  unfold failedLogin, incLoginAttempts, isLocked. rewrite Hl.
  destruct (Z.geb_spec (loginAttempts s + 1) 5) as [_|]; [|lia].
  unfold applyOps. cbn. try rewrite Hl. repeat split.
  - intros now Hnow. rewrite Z.gtb_ltb. apply Z.ltb_lt. lia.
  - intros now Hnow. rewrite Z.gtb_ltb. apply Z.ltb_ge. lia.
Qed.

Lemma failedLogin_locks_witness :
  lockUntil (failedLogin 1000 1000 1000
               {| loginAttempts := 4; lockUntil := None |})
  = Some (1000 + 7200000).
Proof.
  apply (failedLogin_locks 1000 1000 1000
           {| loginAttempts := 4; lockUntil := None |}).
  - reflexivity.
  - simpl. lia.
Defined.

Lemma failedLogin_unlocked_low (now1 now2 now3 : Z) (s : Security) :
  lockUntil s = None -> loginAttempts s + 1 < 5 ->
  failedLogin now1 now2 now3 s
  = {| loginAttempts := loginAttempts s + 1; lockUntil := None |}.
Proof.
  intros Hl Ha. unfold failedLogin, incLoginAttempts. rewrite Hl.
  destruct (Z.geb_spec (loginAttempts s + 1) 5); [lia|].
  unfold applyOps. cbn. try rewrite Hl. reflexivity.
Qed.

(** X25.  Five failed logins on a new account lock it: the fifth one sets
    the lock to two hours after its clock reading, and the counter
    stands at 5. *)
Theorem failedLogins_five_lock :
  forall a b c d e : Z * Z * Z,
    failedLogins [a; b; c; d; e] fresh
    = {| loginAttempts := 5; lockUntil := Some (snd e + 7200000) |}.
Proof.
  intros [[a1 a2] a3] [[b1 b2] b3] [[c1 c2] c3] [[d1 d2] d3] [[e1 e2] e3].
  unfold failedLogins. cbn [fold_left snd].
  rewrite (failedLogin_unlocked_low a1 a2 a3 fresh) by reflexivity.
  rewrite (failedLogin_unlocked_low b1 b2 b3) by reflexivity.
  rewrite (failedLogin_unlocked_low c1 c2 c3) by reflexivity.
  rewrite (failedLogin_unlocked_low d1 d2 d3) by reflexivity.
  reflexivity.
Qed.

(** X26.  While the lock holds, a failed login counts but does not move
    the lock's end; once the lock's end has passed, the next failed login
    removes the lock and restarts the counter at 1. *)
Theorem failedLogin_under_lock :
  forall (now1 now2 now3 until : Z) (s : Security),
    lockUntil s = Some until ->
    (now1 <= until -> now2 < until ->
     failedLogin now1 now2 now3 s
     = {| loginAttempts := loginAttempts s + 1; lockUntil := Some until |}) /\
    (until < now1 ->
     failedLogin now1 now2 now3 s
     = {| loginAttempts := 1; lockUntil := None |}).
Proof.
  intros now1 now2 now3 until s Hl. split.
  - intros H1 H2. unfold failedLogin, incLoginAttempts, isLocked. rewrite Hl.
    destruct (Z.ltb_spec until now1); [lia|].
    replace (until >? now2) with true
      by (symmetry; rewrite Z.gtb_ltb; apply Z.ltb_lt; lia).
    rewrite andb_false_r. unfold applyOps. cbn. try rewrite Hl. reflexivity.
  - intros H. unfold failedLogin, incLoginAttempts. rewrite Hl.
    destruct (Z.ltb_spec until now1); [|lia]. reflexivity.
Qed.

Lemma failedLogin_under_lock_witness :
  failedLogin 2000 2000 2000 {| loginAttempts := 5; lockUntil := Some 9000 |}
  = {| loginAttempts := 6; lockUntil := Some 9000 |} /\
  failedLogin 9500 9500 9500 {| loginAttempts := 6; lockUntil := Some 9000 |}
  = {| loginAttempts := 1; lockUntil := None |}.
Proof.
  split.
  - apply (proj1 (failedLogin_under_lock 2000 2000 2000 9000
                    {| loginAttempts := 5; lockUntil := Some 9000 |}
                    eq_refl)); lia.
  - apply (proj2 (failedLogin_under_lock 9500 9500 9500 9000
                    {| loginAttempts := 6; lockUntil := Some 9000 |}
                    eq_refl)); lia.
Defined.

End UserFacts.

(** ** System configuration: validation and history *)

Section SystemConfigFacts.

Import SystemConfig.
Local Open Scope string_scope.
Local Open Scope Z_scope.

Variable regexTest : string -> string -> option bool.
Variable looselyEquals : Value -> string -> bool.

Lemma typeName_eqb_eq (a b : TypeName) : typeName_eqb a b = true <-> a = b.
Proof. destruct a, b; simpl; split; congruence. Qed.

Ltac pass_check :=
  match goal with
  | |- match ?x with Some e => inl e | None => _ end = _ -> _ =>
      destruct x; [discriminate|]
  end.

Lemma validateValue_type (c : t) (v : Value) :
  validateValue regexTest looselyEquals c v = inr tt ->
  actualTypeOf v = dataType c \/ v = VNull.
Proof.
  unfold validateValue.
  destruct (required (validation c) && isNullish v); [discriminate|].
  destruct (typeName_eqb (actualTypeOf v) (dataType c)) eqn:Et.
  - intros _. left. now apply typeName_eqb_eq.
  - destruct v; cbn; try discriminate. intros _. now right.
Qed.

Lemma validateValue_enum (c : t) (v : Value) :
  validateValue regexTest looselyEquals c v = inr tt ->
  enum (validation c) = [] \/ enumIncludes looselyEquals (enum (validation c)) v = true.
Proof.
  unfold validateValue.
  destruct (required (validation c) && isNullish v); [discriminate|].
  destruct (negb (typeName_eqb (actualTypeOf v) (dataType c))
            && negb (isNull v)); [discriminate|].
  cbv zeta. pass_check. pass_check.
  destruct (enum (validation c)) as [|x xs]; [now left|].
  destruct (enumIncludes looselyEquals (x :: xs) v); [now right | discriminate].
Qed.

(** X27.  Validation accepts a value only if its type is the configured
    [dataType] or it is [null].  No value has type ['date'], so a
    configuration of that type accepts nothing but [null]; and
    [undefined] is never accepted. *)
Theorem validateValue_date_only_null :
  forall (c : t) (v : Value),
    validateValue regexTest looselyEquals c v = inr tt ->
    (dataType c = Tdate -> v = VNull) /\
    (dataType c <> Tundefined -> v <> VUndefined).
Proof.
  intros c v H. destruct (validateValue_type c v H) as [Ht | ->].
  - split.
    + intros Hd. rewrite Hd in Ht. destruct v; discriminate.
    + intros Hu ->. now apply Hu.
  - split; [reflexivity | discriminate].
Qed.

(** X28.  With a non-empty [validation.enum], [null] is rejected, and a
    string is accepted only if the list holds it; so a configuration of
    type ['string'] accepts nothing but the listed strings.  (A number or
    a boolean is compared with [==] and can be found: [2] in
    [['1','2','3']].) *)
Theorem validateValue_enum_strings :
  forall (c : t) (v : Value),
    enum (validation c) <> [] ->
    validateValue regexTest looselyEquals c v = inr tt ->
    v <> VNull /\
    (forall s, v = VString s -> In s (enum (validation c))) /\
    (dataType c = Tstring ->
     exists s, v = VString s /\ In s (enum (validation c))).
Proof.
  intros c v Hne H. destruct (validateValue_enum c v H) as [He | He];
    [contradiction|].
  assert (Hs : forall s, v = VString s -> In s (enum (validation c))).
  { intros s ->. cbn in He. apply existsb_exists in He.
    destruct He as [x [Hin Hx]]. apply String.eqb_eq in Hx. now subst. }
  assert (Hn : v <> VNull) by (intros ->; discriminate).
  split; [exact Hn|]. split; [exact Hs|].
  intros Ht. destruct (validateValue_type c v H) as [Hty | Hnull];
    [|contradiction].
  rewrite Ht in Hty. destruct v; try discriminate.
  exists s. split; [reflexivity | now apply Hs].
Qed.

(** X29.  For a configuration of type ['number'] without [enum], a number
    is accepted exactly when it is not below [validation.min] and not
    above [validation.max], each bound applying only if it is set. *)
Theorem validateValue_number_range :
  forall (c : t) (q : Q),
    dataType c = Tnumber ->
    enum (validation c) = [] ->
    (validateValue regexTest looselyEquals c (VNumber q) = inr tt <->
     (forall m, min (validation c) = Some m -> (m <= q)%Q) /\
     (forall M, max (validation c) = Some M -> (q <= M)%Q)).
Proof.
  intros c q Ht He. unfold validateValue. rewrite Ht, He.
  cbn [isNullish isNull actualTypeOf typeName_eqb negb andb List.length].
  rewrite andb_false_r. cbn [Z.of_nat Z.ltb Z.compare andb].
  destruct (min (validation c)) as [m|], (max (validation c)) as [M|].
  - destruct (JSExt.lt q m) eqn:E1.
    + apply lt_spec in E1. split; [discriminate|]. intros [Hm _].
      elim (Qlt_not_le _ _ E1 (Hm m eq_refl)).
    + destruct (JSExt.lt M q) eqn:E2.
      * apply lt_spec in E2. split; [discriminate|]. intros [_ HM].
        elim (Qlt_not_le _ _ E2 (HM M eq_refl)).
      * split; [|reflexivity]. intros _. split.
        -- intros m' Hm'. injection Hm' as <-. apply Qnot_lt_le.
           intros Hlt. apply lt_spec in Hlt. congruence.
        -- intros M' HM'. injection HM' as <-. apply Qnot_lt_le.
           intros Hlt. apply lt_spec in Hlt. congruence.
  - destruct (JSExt.lt q m) eqn:E1.
    + apply lt_spec in E1. split; [discriminate|]. intros [Hm _].
      elim (Qlt_not_le _ _ E1 (Hm m eq_refl)).
    + split; [|reflexivity]. intros _. split; [|discriminate].
      intros m' Hm'. injection Hm' as <-. apply Qnot_lt_le.
      intros Hlt. apply lt_spec in Hlt. congruence.
  - destruct (JSExt.lt M q) eqn:E2.
    + apply lt_spec in E2. split; [discriminate|]. intros [_ HM].
      elim (Qlt_not_le _ _ E2 (HM M eq_refl)).
    + split; [|reflexivity]. intros _. split; [discriminate|].
      intros M' HM'. injection HM' as <-. apply Qnot_lt_le.
      intros Hlt. apply lt_spec in Hlt. congruence.
  - split; [|reflexivity]. intros _. split; discriminate.
Qed.

Lemma updateValue_history (now1 now2 : Z) (v : Value) (by_ why : string)
      (c c' : t) :
  updateValue regexTest looselyEquals now1 now2 v by_ why c = inr c' ->
  map version (history c) = map Z.of_nat (seq 1 (List.length (history c))) ->
  map version (history c')
    = map Z.of_nat (seq 1 (List.length (history c'))) /\
  List.length (history c') = S (List.length (history c)) /\
  writeCount (accessStats c') = writeCount (accessStats c) + 1 /\
  value c' = v /\
  (exists e, history c' = (history c ++ [e])%list /\ entry_value e = value c).
Proof.
  unfold updateValue.
  destruct (validateValue regexTest looselyEquals c v); [discriminate|].
  intros H Hv. injection H as <-. cbn [history accessStats writeCount value].
  rewrite map_app, length_app, Hv. cbn [map List.length version].
  replace (List.length (history c) + 1)%nat with (S (List.length (history c)))
    by lia.
  rewrite seq_S, map_app. cbn [map].
  repeat split.
  - do 2 f_equal. lia.
  - eexists. split; reflexivity.
Qed.

(** X30.  Starting from an empty history, after any series of
    [updateValue] calls, of which the rejected ones change nothing, the
    history entries carry the versions 1, 2, 3, ... in order, there are at
    most as many as calls, and [writeCount] has grown by their number. *)
Theorem updateAll_versions :
  forall (changes : list Change) (c : t),
    history c = [] ->
    map version (history (updateAll regexTest looselyEquals changes c))
      = map Z.of_nat
          (seq 1 (List.length (history (updateAll regexTest looselyEquals changes c)))) /\
    (List.length (history (updateAll regexTest looselyEquals changes c))
       <= List.length changes)%nat /\
    writeCount (accessStats (updateAll regexTest looselyEquals changes c))
      = writeCount (accessStats c)
        + Z.of_nat (List.length (history (updateAll regexTest looselyEquals changes c))).
Proof.
  intros changes c Hc. unfold updateAll.
  induction changes as [|ch changes IH] using rev_ind.
  - cbn. rewrite Hc. cbn. repeat split; lia.
  - rewrite fold_left_app, length_app. cbn [fold_left List.length].
    destruct IH as [Hv [Hl Hw]].
    set (acc := fold_left _ changes c) in *.
    destruct (updateValue regexTest looselyEquals (change_now1 ch) (change_now2 ch)
                (change_value ch) (change_by ch) (change_reason ch) acc)
      as [err | acc'] eqn:E.
    + repeat split; trivial; lia.
    + destruct (updateValue_history _ _ _ _ _ _ _ E Hv)
        as [Hv' [Hl' [Hw' _]]].
      repeat split; trivial; lia.
Qed.

End SystemConfigFacts.

Section SystemConfigWitnesses.

Import SystemConfig.
Local Open Scope string_scope.
Local Open Scope Z_scope.

Lemma validateValue_date_only_null_witness :
  (dataType (MoreSamples.config Tdate (VDate 0) VUndefined
               (MoreSamples.rules None None)) = Tdate ->
   VNull = VNull) /\
  (dataType (MoreSamples.config Tdate (VDate 0) VUndefined
               (MoreSamples.rules None None)) <> Tundefined ->
   VNull <> VUndefined).
Proof.
  apply (validateValue_date_only_null MoreSamples.anyRegex MoreSamples.noLooseMatch
           (MoreSamples.config Tdate (VDate 0) VUndefined
              (MoreSamples.rules None None)) VNull).
  reflexivity.
Defined.

Lemma validateValue_enum_strings_witness :
  exists s,
    VString "daily" = VString s /\
    In s (enum (validation
                  (MoreSamples.config Tstring (VString "hourly") VUndefined
                     (MoreSamples.enumRules ["hourly"; "daily"])))).
Proof.
  apply (validateValue_enum_strings MoreSamples.anyRegex
           MoreSamples.noLooseMatch
           (MoreSamples.config Tstring (VString "hourly") VUndefined
              (MoreSamples.enumRules ["hourly"; "daily"]))
           (VString "daily")).
  - discriminate.
  - reflexivity.
  - reflexivity.
Defined.

Lemma validateValue_number_range_witness :
  validateValue MoreSamples.anyRegex MoreSamples.noLooseMatch
    (MoreSamples.config Tnumber (VNumber 5) VUndefined
       (MoreSamples.rules (Some 1%Q) (Some 10%Q)))
    (VNumber 7) = inr tt <->
  (forall m, Some 1%Q = Some m -> (m <= 7)%Q) /\
  (forall M, Some 10%Q = Some M -> (7 <= M)%Q).
Proof.
  apply (validateValue_number_range MoreSamples.anyRegex MoreSamples.noLooseMatch
           (MoreSamples.config Tnumber (VNumber 5) VUndefined
              (MoreSamples.rules (Some 1%Q) (Some 10%Q))) 7);
    reflexivity.
Defined.

Lemma updateAll_versions_witness :
  map version
    (history
       (updateAll MoreSamples.anyRegex MoreSamples.noLooseMatch
          [MoreSamples.change 10 (VNumber 7);
           MoreSamples.change 20 (VNumber 99);
           MoreSamples.change 30 (VNumber 3)]
          (MoreSamples.config Tnumber (VNumber 5) VUndefined
             (MoreSamples.rules (Some 1%Q) (Some 10%Q)))))
  = map Z.of_nat
      (seq 1
         (List.length
            (history
               (updateAll MoreSamples.anyRegex MoreSamples.noLooseMatch
                  [MoreSamples.change 10 (VNumber 7);
                   MoreSamples.change 20 (VNumber 99);
                   MoreSamples.change 30 (VNumber 3)]
                  (MoreSamples.config Tnumber (VNumber 5) VUndefined
                     (MoreSamples.rules (Some 1%Q) (Some 10%Q))))))).
Proof.
  apply (updateAll_versions MoreSamples.anyRegex MoreSamples.noLooseMatch
           [MoreSamples.change 10 (VNumber 7);
            MoreSamples.change 20 (VNumber 99);
            MoreSamples.change 30 (VNumber 3)]
           (MoreSamples.config Tnumber (VNumber 5) VUndefined
              (MoreSamples.rules (Some 1%Q) (Some 10%Q)))).
  reflexivity.
Defined.

End SystemConfigWitnesses.
